(** * inter-chat: the streaming response consumers

    A shallow embedding of the two streaming clients of the repository,

    - [src/hooks/useStreamingChat.ts]: the raw-text hook ([handleSubmit],
      [stop]), with the [UIMessage] type it imports, and
    - [src/components/chat/ChatInterface.tsx]: the NDJSON component
      ([handleSendMessage]),

    together with the parts of the JavaScript platform they call
    ([String.prototype.trim], [String.prototype.split], property access,
    string concatenation, [TextDecoder]).  [JSON.parse] is a parameter of
    the development; a concrete reader of JSON text instantiates it on
    concrete inputs. *)

From Stdlib Require Import List Arith NArith ZArith Bool String Ascii Lia DecimalString.
From Stdlib.Strings Require Import Byte.
Import ListNotations.

(* ================================================================== *)
(** ** JavaScript strings *)
(* ================================================================== *)

(** A JavaScript string is a sequence of UTF-16 code units. *)
Definition jsstring := list N.

(** The string written with ASCII characters only. *)
Definition u (s : string) : jsstring :=
  map N_of_ascii (list_ascii_of_string s).

Module JsString.

Fixpoint eqb (a b : jsstring) : bool :=
  match a, b with
  | [], [] => true
  | x :: a', y :: b' => N.eqb x y && eqb a' b'
  | _, _ => false
  end.

(** ECMAScript [WhiteSpace] and [LineTerminator] code units: what
    [String.prototype.trim] strips. *)
Definition is_white_space (c : N) : bool :=
  ((9 <=? c) && (c <=? 13) || (c =? 32) || (c =? 160) || (c =? 0x1680)
   || (0x2000 <=? c) && (c <=? 0x200A)
   || (c =? 0x2028) || (c =? 0x2029) || (c =? 0x202F) || (c =? 0x205F)
   || (c =? 0x3000) || (c =? 0xFEFF))%N.

Fixpoint trimStart (s : jsstring) : jsstring :=
  match s with
  | c :: s' => if is_white_space c then trimStart s' else s
  | [] => []
  end.

Definition trimEnd (s : jsstring) : jsstring := rev (trimStart (rev s)).

(** [s.trim()] *)
Definition trim (s : jsstring) : jsstring := trimEnd (trimStart s).

(** Truthiness of a string: [!s] holds exactly for the empty string. *)
Definition truthy (s : jsstring) : bool :=
  match s with [] => false | _ :: _ => true end.

Definition LF : N := 10.

(** [s.split("\n")]: the pieces between line feeds; never empty. *)
Fixpoint split_lines (s : jsstring) : list jsstring :=
  match s with
  | [] => [[]]
  | c :: s' =>
      if (c =? LF)%N then [] :: split_lines s'
      else match split_lines s' with
           | piece :: pieces => (c :: piece) :: pieces
           | [] => [[c]]
           end
  end.

(** Decimal rendering of an array index or a length. *)
Definition of_nat (n : nat) : jsstring :=
  u (NilEmpty.string_of_uint (Nat.to_uint n)).

End JsString.

(* ================================================================== *)
(** ** JavaScript values *)
(* ================================================================== *)

(** The values the two clients handle: what [JSON.parse] returns, and the
    object and array literals the hook builds.  A Number is carried by its
    [Number::toString] rendering, which is all these programs observe of
    it. *)
#[warnings="-register-all"]
Inductive JsVal : Type :=
| JUndefined
| JNull
| JBool (b : bool)
| JNum (rendering : jsstring)
| JStr (s : jsstring)
| JArr (elems : list JsVal)
| JObj (props : list (jsstring * JsVal)).

Module Js.

Fixpoint lookup (k : jsstring) (props : list (jsstring * JsVal)) : option JsVal :=
  match props with
  | [] => None
  | (k', v) :: rest => if JsString.eqb k k' then Some v else lookup k rest
  end.

(** [o[k] = v] on a fresh object literal: overwrite in place, or add last. *)
Fixpoint set (k : jsstring) (v : JsVal) (props : list (jsstring * JsVal))
  : list (jsstring * JsVal) :=
  match props with
  | [] => [(k, v)]
  | (k', v') :: rest =>
      if JsString.eqb k k' then (k, v) :: rest else (k', v') :: set k v rest
  end.

Definition index_keys (n : nat) : list jsstring :=
  map JsString.of_nat (seq 0 n).

(** The own enumerable properties of a value, in order: what a spread
    [{...v}] copies. *)
Definition own_props (v : JsVal) : list (jsstring * JsVal) :=
  match v with
  | JObj props => props
  | JArr elems => combine (index_keys (List.length elems)) elems
  | JStr s => combine (index_keys (List.length s)) (map (fun c => JStr [c]) s)
  | _ => []
  end.

(** [v.k] for a property name [k] that no built-in prototype defines (this
    covers every name the clients read: [type], [data], [finishReason],
    [text], [parts]).  [None] is the [TypeError] raised on [undefined] and
    [null]. *)
Definition Get (v : JsVal) (k : jsstring) : option JsVal :=
  match v with
  | JUndefined | JNull => None
  | _ =>
      match lookup k (own_props v) with
      | Some x => Some x
      | None =>
          match v with
          | JArr elems =>
              if JsString.eqb k (u "length")
              then Some (JNum (JsString.of_nat (List.length elems)))
              else Some JUndefined
          | JStr s =>
              if JsString.eqb k (u "length")
              then Some (JNum (JsString.of_nat (List.length s)))
              else Some JUndefined
          | _ => Some JUndefined
          end
      end
  end.

(** [v === "s"] *)
Definition strict_eq_string (v : JsVal) (s : jsstring) : bool :=
  match v with
  | JStr t => JsString.eqb t s
  | _ => false
  end.

(** [ToString(ToPrimitive(v))], as the [+] operator with a string operand
    and a template literal apply it.  A plain object renders through
    [Object.prototype.toString] unless an own [toString] property (never
    callable here) shadows it, in which case the conversion raises
    [TypeError] ([None]); an array renders through [join]. *)
Fixpoint ToString (v : JsVal) : option jsstring :=
  match v with
  | JUndefined => Some (u "undefined")
  | JNull => Some (u "null")
  | JBool true => Some (u "true")
  | JBool false => Some (u "false")
  | JNum r => Some r
  | JStr s => Some s
  | JArr elems =>
      (fix join (l : list JsVal) : option jsstring :=
         match l with
         | [] => Some []
         | x :: rest =>
             let sx := match x with
                       | JUndefined | JNull => Some []
                       | _ => ToString x
                       end in
             match sx, rest with
             | None, _ => None
             | Some a, [] => Some a
             | Some a, _ :: _ =>
                 match join rest with
                 | Some b => Some (a ++ u "," ++ b)
                 | None => None
                 end
             end
         end) elems
  | JObj props =>
      match lookup (u "toString") props with
      | Some _ => None
      | None => Some (u "[object Object]")
      end
  end.

(** [a + s] where [s] is a string. *)
Definition add_string (a : JsVal) (s : jsstring) : option jsstring :=
  match ToString a with
  | Some t => Some (t ++ s)
  | None => None
  end.

(** [a || b] on strings. *)
Definition or_string (a b : jsstring) : jsstring :=
  if JsString.truthy a then a else b.

End Js.

(** A thrown [Error] object, as far as the clients look at it. *)
Record JsError : Type := mkError { name : jsstring; message : jsstring }.

(* ================================================================== *)
(** ** TextDecoder *)
(* ================================================================== *)

(** [new TextDecoder()]: the UTF-8 decoder of the Encoding Standard, in
    replacement error mode, with [ignoreBOM] false. *)
Module TextDecoder.

Record utf8 : Type := mkUtf8 {
  code_point : N;
  bytes_seen : N;
  bytes_needed : N;
  lower_boundary : N;
  upper_boundary : N
}.

Definition utf8_init : utf8 := mkUtf8 0 0 0 0x80 0xBF.

Definition REPLACEMENT : N := 0xFFFD.

(** The handler on a byte when no sequence is pending. *)
Definition lead (b : N) : utf8 * list N :=
  (if b <=? 0x7F then (utf8_init, [b])
   else if (0xC2 <=? b) && (b <=? 0xDF)
   then (mkUtf8 (N.land b 0x1F) 0 1 0x80 0xBF, [])
   else if (0xE0 <=? b) && (b <=? 0xEF)
   then (mkUtf8 (N.land b 0xF) 0 2
           (if b =? 0xE0 then 0xA0 else 0x80)
           (if b =? 0xED then 0x9F else 0xBF), [])
   else if (0xF0 <=? b) && (b <=? 0xF4)
   then (mkUtf8 (N.land b 0x7) 0 3
           (if b =? 0xF0 then 0x90 else 0x80)
           (if b =? 0xF4 then 0x8F else 0xBF), [])
   else (utf8_init, [REPLACEMENT]))%N.

(** The handler on one byte: the new state and the scalar values emitted.
    A byte outside the expected range ends the pending sequence with an
    error and is then handled again from the initial state. *)
Definition handle (d : utf8) (b : N) : utf8 * list N :=
  (if bytes_needed d =? 0 then lead b
   else if negb ((lower_boundary d <=? b) && (b <=? upper_boundary d))
   then let (d', out) := lead b in (d', REPLACEMENT :: out)
   else
     let cp := N.lor (N.shiftl (code_point d) 6) (N.land b 0x3F) in
     let seen := bytes_seen d + 1 in
     if seen =? bytes_needed d then (utf8_init, [cp])
     else (mkUtf8 cp seen (bytes_needed d) 0x80 0xBF, []))%N.

Fixpoint run (d : utf8) (bytes : list N) : utf8 * list N :=
  match bytes with
  | [] => (d, [])
  | b :: rest =>
      let (d1, out1) := handle d b in
      let (d2, out2) := run d1 rest in
      (d2, out1 ++ out2)
  end.

(** The handler on end-of-queue. *)
Definition finish (d : utf8) : utf8 * list N :=
  (if bytes_needed d =? 0 then (d, [])
   else (mkUtf8 (code_point d) (bytes_seen d) 0 (lower_boundary d)
           (upper_boundary d), [REPLACEMENT]))%N.

(** Serialising the output queue: a leading U+FEFF is dropped once. *)
Definition serialize (BOM_seen : bool) (items : list N) : list N * bool :=
  match items with
  | [] => ([], BOM_seen)
  | c :: rest =>
      if BOM_seen then (items, true)
      else if (c =? 0xFEFF)%N then (rest, true)
      else (items, true)
  end.

(** A scalar value as UTF-16 code units. *)
Definition utf16 (c : N) : jsstring :=
  (if c <? 0x10000 then [c]
   else [0xD800 + (c - 0x10000) / 0x400; 0xDC00 + (c - 0x10000) mod 0x400])%N.

Record t : Type := mk {
  decoder : utf8;
  do_not_flush : bool;
  BOM_seen : bool
}.

(** [new TextDecoder()] *)
Definition new : t := mk utf8_init false false.

(** [td.decode(input, { stream })]; [td.decode(input)] is [stream = false]. *)
Definition decode (td : t) (input : list byte) (stream : bool) : jsstring * t :=
  let td0 := if do_not_flush td then td else new in
  let (d1, out1) := run (decoder td0) (map Byte.to_N input) in
  let (d2, out2) := if stream then (d1, []) else finish d1 in
  let (items, bom) := serialize (BOM_seen td0) (out1 ++ out2) in
  (flat_map utf16 items, mk d2 stream bom).

End TextDecoder.

(** The bytes of an ASCII literal. *)
Definition bytes (s : string) : list byte := list_byte_of_string s.

(* ================================================================== *)
(** ** A reader of JSON text *)
(* ================================================================== *)

(** The grammar of ECMA-404 as [JSON.parse] reads it: insignificant white
    space, objects (a repeated key keeps its first position and its last
    value), arrays, strings with their escapes, the three literals, and
    integer numerals of at most fifteen digits, whose Number rendering is
    the numeral itself.  Numerals with a fraction or an exponent are outside
    the domain of this reader (it answers [None] on them); it only serves
    to run the clients on concrete lines that carry none. *)
Module JSON.

Definition chr (a : ascii) : N := N_of_ascii a.

Definition QUOTE : N := 34.

Definition is_ws (c : N) : bool :=
  ((c =? 9) || (c =? 10) || (c =? 13) || (c =? 32))%N.

Fixpoint skip_ws (s : jsstring) : jsstring :=
  match s with
  | c :: s' => if is_ws c then skip_ws s' else s
  | [] => []
  end.

Definition hex_digit (c : N) : option N :=
  (if (48 <=? c) && (c <=? 57) then Some (c - 48)
   else if (65 <=? c) && (c <=? 70) then Some (c - 55)
   else if (97 <=? c) && (c <=? 102) then Some (c - 87)
   else None)%N.

Definition hex4 (a b c d : N) : option N :=
  match hex_digit a, hex_digit b, hex_digit c, hex_digit d with
  | Some x, Some y, Some z, Some w => Some (((x * 16 + y) * 16 + z) * 16 + w)%N
  | _, _, _, _ => None
  end.

Definition escape (c : N) : option N :=
  (if (c =? QUOTE) || (c =? chr "\") || (c =? chr "/") then Some c
   else if c =? chr "b" then Some 8
   else if c =? chr "f" then Some 12
   else if c =? chr "n" then Some 10
   else if c =? chr "r" then Some 13
   else if c =? chr "t" then Some 9
   else None)%N.

Definition push (c : N) (r : option (jsstring * jsstring))
  : option (jsstring * jsstring) :=
  match r with
  | Some (str, rest) => Some (c :: str, rest)
  | None => None
  end.

(** The characters of a string after its opening quote, and what follows
    the closing quote. *)
Fixpoint string_body (s : jsstring) : option (jsstring * jsstring) :=
  match s with
  | [] => None
  | c :: r =>
      if (c =? QUOTE)%N then Some ([], r)
      else if (c =? chr "\")%N then
        match r with
        | [] => None
        | e :: r1 =>
            if (e =? chr "u")%N then
              match r1 with
              | h1 :: h2 :: h3 :: h4 :: r2 =>
                  match hex4 h1 h2 h3 h4 with
                  | Some x => push x (string_body r2)
                  | None => None
                  end
              | _ => None
              end
            else
              match escape e with
              | Some x => push x (string_body r1)
              | None => None
              end
        end
      else if (c <? 32)%N then None
      else push c (string_body r)
  end.

Definition is_digit (c : N) : bool := ((48 <=? c) && (c <=? 57))%N.

Fixpoint digits (s : jsstring) : jsstring * jsstring :=
  match s with
  | c :: s' =>
      if is_digit c then let (ds, rest) := digits s' in (c :: ds, rest)
      else ([], s)
  | [] => ([], [])
  end.

Definition starts_number_tail (s : jsstring) : bool :=
  match s with
  | c :: _ => ((c =? chr ".") || (c =? chr "e") || (c =? chr "E"))%N
  | [] => false
  end.

(** An integer numeral: an optional minus sign, then either a single 0 or
    a non-zero digit followed by digits. *)
Definition number (s : jsstring) : option (JsVal * jsstring) :=
  let (negative, s1) :=
    match s with
    | c :: s' => if (c =? chr "-")%N then (true, s') else (false, s)
    | [] => (false, s)
    end in
  let (ds, rest) := digits s1 in
  match ds with
  | [] => None
  | d :: ds' =>
      if (d =? 48)%N && JsString.truthy ds' then None
      else if starts_number_tail rest then None
      else if Nat.ltb 15 (List.length ds) then None
      else if negative && negb (d =? 48)%N
      then Some (JNum (chr "-" :: ds), rest)
      else Some (JNum ds, rest)
  end.

Fixpoint strip_prefix (p s : jsstring) : option jsstring :=
  match p, s with
  | [], _ => Some s
  | a :: p', b :: s' => if (a =? b)%N then strip_prefix p' s' else None
  | _ :: _, [] => None
  end.

Definition literal (s : jsstring) : option (JsVal * jsstring) :=
  match strip_prefix (u "true") s with
  | Some r => Some (JBool true, r)
  | None =>
      match strip_prefix (u "false") s with
      | Some r => Some (JBool false, r)
      | None =>
          match strip_prefix (u "null") s with
          | Some r => Some (JNull, r)
          | None => number s
          end
      end
  end.

Fixpoint value (fuel : nat) (s : jsstring) : option (JsVal * jsstring) :=
  match fuel with
  | O => None
  | S fuel' =>
      match skip_ws s with
      | [] => None
      | c :: r =>
          if (c =? chr "{")%N then
            match skip_ws r with
            | c1 :: r1 =>
                if (c1 =? chr "}")%N then Some (JObj [], r1)
                else members fuel' [] r
            | [] => None
            end
          else if (c =? chr "[")%N then
            match skip_ws r with
            | c1 :: r1 =>
                if (c1 =? chr "]")%N then Some (JArr [], r1)
                else elements fuel' [] r
            | [] => None
            end
          else if (c =? QUOTE)%N then
            match string_body r with
            | Some (str, rest) => Some (JStr str, rest)
            | None => None
            end
          else literal (c :: r)
      end
  end

with members (fuel : nat) (acc : list (jsstring * JsVal)) (s : jsstring)
  : option (JsVal * jsstring) :=
  match fuel with
  | O => None
  | S fuel' =>
      match skip_ws s with
      | [] => None
      | q :: r =>
          if negb (q =? QUOTE)%N then None
          else
            match string_body r with
            | None => None
            | Some (key, r1) =>
                match skip_ws r1 with
                | [] => None
                | colon :: r2 =>
                    if negb (colon =? chr ":")%N then None
                    else
                      match value fuel' r2 with
                      | None => None
                      | Some (v, r3) =>
                          let acc' := Js.set key v acc in
                          match skip_ws r3 with
                          | [] => None
                          | c :: r4 =>
                              if (c =? chr ",")%N then members fuel' acc' r4
                              else if (c =? chr "}")%N
                              then Some (JObj acc', r4)
                              else None
                          end
                      end
                end
            end
      end
  end

with elements (fuel : nat) (acc : list JsVal) (s : jsstring)
  : option (JsVal * jsstring) :=
  match fuel with
  | O => None
  | S fuel' =>
      match value fuel' s with
      | None => None
      | Some (v, r1) =>
          match skip_ws r1 with
          | [] => None
          | c :: r2 =>
              if (c =? chr ",")%N then elements fuel' (v :: acc) r2
              else if (c =? chr "]")%N
              then Some (JArr (rev (v :: acc)), r2)
              else None
          end
      end
  end.

(** [JSON.parse(text)]; [None] is the [SyntaxError] it throws. *)
Definition parse (text : jsstring) : option JsVal :=
  match value (2 * List.length text + 2) text with
  | Some (v, rest) =>
      match skip_ws rest with
      | [] => Some v
      | _ :: _ => None
      end
  | None => None
  end.

End JSON.

(** A JSON or wire text written with ['] standing for the double quote. *)
Definition q (s : string) : jsstring :=
  map (fun c => if (c =? 39)%N then JSON.QUOTE else c) (u s).

(** The bytes of such a text (ASCII only). *)
Definition qbytes (s : string) : list byte :=
  map (fun b => if Byte.eqb b x27 then x22 else b) (bytes s).

(* ================================================================== *)
(** ** The transport boundary *)
(* ================================================================== *)

Inductive Role : Type := user | assistant.

(** How a pending [await] of a client settles: [fetch] resolves with a
    response or rejects, [reader.read()] resolves with a chunk, resolves
    with [done], or rejects. *)
Inductive Settled : Type :=
| Response (ok : bool) (statusText : jsstring) (hasBody : bool)
| FetchRejected (e : JsError)
| Chunk (value : list byte)
| Done
| ReadRejected (e : JsError).

(** A call of [fetch]: the URL, the headers and the object handed to
    [JSON.stringify] as the body. *)
Record Request : Type := mkRequest {
  url : jsstring;
  headers : list (jsstring * jsstring);
  body : JsVal
}.

(** A line of the console: [console.log(text)], or
    [console.error(label, error)], of which the label is kept. *)
Inductive ConsoleEntry : Type :=
| ConsoleLog (text : jsstring)
| ConsoleError (label : jsstring).

(* ================================================================== *)
(** ** src/components/chat/ChatInterface.tsx *)
(* ================================================================== *)

Module ChatInterface.

Record ChatMessage : Type := mkChatMessage {
  id : jsstring;
  content : jsstring;
  role : Role;
  timestamp : N;
  isStreaming : option bool
}.

(** The component's [useState] cells. *)
Record State : Type := mkState {
  messages : list ChatMessage;
  inputMessage : jsstring;
  isTyping : bool;
  sessionId : jsstring
}.

Definition setMessages (f : list ChatMessage -> list ChatMessage) (st : State) : State :=
  mkState (f (messages st)) (inputMessage st) (isTyping st) (sessionId st).

Definition setInputMessage (s : jsstring) (st : State) : State :=
  mkState (messages st) s (isTyping st) (sessionId st).

Definition setIsTyping (b : bool) (st : State) : State :=
  mkState (messages st) (inputMessage st) b (sessionId st).

Definition BASE_URL : jsstring := u "https://actibot.vercel.app".

Definition FALLBACK : jsstring :=
  u "Sorry, something went wrong. Please try again.".

(** What one call of the handler draws from [nanoid()] and [new Date()]. *)
Record Env : Type := mkEnv {
  userMessageId : jsstring;
  userTimestamp : N;
  botMessageId : jsstring;
  botTimestamp : N
}.

(** Where the [async] handler is suspended. *)
Inductive Phase : Type :=
| AwaitFetch (botMessageId : jsstring)
| Reading (botMessageId : jsstring) (decoder : TextDecoder.t)
          (accumulatedResponse : jsstring)
| Returned.

Record Config : Type := mkConfig {
  ui : State;
  console : list ConsoleEntry;
  fetched : list Request;
  phase : Phase
}.

(** [prev.map((msg) => msg.id === botMessageId ? { ...msg, content } : msg)] *)
Definition set_content (botMessageId c : jsstring) (prev : list ChatMessage) :=
  map (fun msg =>
         if JsString.eqb (id msg) botMessageId
         then mkChatMessage (id msg) c (role msg) (timestamp msg) (isStreaming msg)
         else msg) prev.

(** [prev.map((msg) => msg.id === botMessageId ? { ...msg, isStreaming: false } : msg)] *)
Definition set_not_streaming (botMessageId : jsstring) (prev : list ChatMessage) :=
  map (fun msg =>
         if JsString.eqb (id msg) botMessageId
         then mkChatMessage (id msg) (content msg) (role msg) (timestamp msg) (Some false)
         else msg) prev.

(** [chunk.split("\n").filter((line) => line.trim())] *)
Definition lines_of (chunk : jsstring) : list jsstring :=
  filter (fun line => JsString.truthy (JsString.trim line))
         (JsString.split_lines chunk).

(** The outer [catch] block. *)
Definition on_catch (botMessageId : jsstring) (c : Config) : Config :=
  mkConfig (setMessages (set_content botMessageId FALLBACK) (ui c))
           (console c ++ [ConsoleError (u "Error fetching streamed response:")])
           (fetched c) (phase c).

(** The [finally] block; the handler returns after it. *)
Definition on_finally (botMessageId : jsstring) (c : Config) : Config :=
  mkConfig (setIsTyping false (setMessages (set_not_streaming botMessageId) (ui c)))
           (console c) (fetched c) Returned.

Section WithParser.

(** [JSON.parse]; [None] when it throws. *)
Variable JSON_parse : jsstring -> option JsVal.

(** What the body of the inner [try] does with one line. *)
Inductive LineOutcome : Type :=
| Append (accumulatedResponse : jsstring)
| Finish (logged : jsstring)
| Skip
| Threw.

Definition try_line (accumulatedResponse line : jsstring) : LineOutcome :=
  match JSON_parse line with
  | None => Threw
  | Some data =>
      match Js.Get data (u "type") with
      | None => Threw
      | Some ty =>
          if Js.strict_eq_string ty (u "chunk") then
            match Js.Get data (u "data") with
            | None => Threw
            | Some d =>
                match Js.ToString d with
                | Some text => Append (accumulatedResponse ++ text)
                | None => Threw
                end
            end
          else if Js.strict_eq_string ty (u "complete") then
            match Js.Get data (u "data") with
            | None => Threw
            | Some d =>
                match Js.Get d (u "finishReason") with
                | None => Threw
                | Some reason =>
                    match Js.ToString reason with
                    | Some text => Finish (u "Stream finished: " ++ text)
                    | None => Threw
                    end
                end
            end
          else Skip
      end
  end.

(** One iteration of [for (const line of lines)]: the configuration and
    [accumulatedResponse] after it. *)
Definition process_line (botMessageId : jsstring) (ca : Config * jsstring)
  (line : jsstring) : Config * jsstring :=
  let (c, acc) := ca in
  match try_line acc line with
  | Append acc' =>
      (mkConfig (setMessages (set_content botMessageId acc') (ui c))
                (console c) (fetched c) (phase c), acc')
  | Finish logged =>
      (mkConfig (ui c) (console c ++ [ConsoleLog logged]) (fetched c) (phase c), acc)
  | Skip => (c, acc)
  | Threw =>
      (mkConfig (ui c)
                (console c ++ [ConsoleError (u "Error parsing stream chunk:")])
                (fetched c) (phase c), acc)
  end.

Definition process_lines (botMessageId : jsstring) (ca : Config * jsstring)
  (lines : list jsstring) : Config * jsstring :=
  fold_left (process_line botMessageId) lines ca.

(** The handler up to its first [await]. *)
Definition enter (env : Env) (st : State) : Config :=
  let textToSend := JsString.trim (inputMessage st) in
  if negb (JsString.truthy textToSend) || isTyping st
  then mkConfig st [] [] Returned
  else
    let userMessage :=
      mkChatMessage (userMessageId env) textToSend user (userTimestamp env) None in
    let st1 := setMessages (fun prev => prev ++ [userMessage]) st in
    let st2 := setInputMessage [] st1 in
    let st3 := setIsTyping true st2 in
    let st4 :=
      setMessages
        (fun prev =>
           prev ++ [mkChatMessage (botMessageId env) [] assistant
                                  (botTimestamp env) (Some true)]) st3 in
    mkConfig st4 []
             [mkRequest (BASE_URL ++ u "/api/bot/user-chat")
                        [(u "Content-Type", u "application/json");
                         (u "Accept", u "application/x-ndjson")]
                        (JObj [(u "query", JStr textToSend);
                               (u "sessionId", JStr (sessionId st))])]
             (AwaitFetch (botMessageId env)).

(** The handler from one [await] to the next, when the awaited promise
    settles as [s].  A settlement that the pending [await] cannot receive
    leaves the configuration as it is. *)
Definition resume (c : Config) (s : Settled) : Config :=
  match phase c, s with
  | AwaitFetch bot, Response ok _ hasBody =>
      if negb ok || negb hasBody
      then on_finally bot (on_catch bot c)
      else mkConfig (ui c) (console c) (fetched c)
                    (Reading bot TextDecoder.new [])
  | AwaitFetch bot, FetchRejected _ => on_finally bot (on_catch bot c)
  | Reading bot decoder acc, Chunk value =>
      let (chunk, decoder') := TextDecoder.decode decoder value false in
      let (c', acc') := process_lines bot (c, acc) (lines_of chunk) in
      mkConfig (ui c') (console c') (fetched c') (Reading bot decoder' acc')
  | Reading bot _ _, Done => on_finally bot c
  | Reading bot _ _, ReadRejected _ => on_finally bot (on_catch bot c)
  | _, _ => c
  end.

(** [handleSendMessage] run against a transport that settles the handler's
    awaits in the given order. *)
Definition handleSendMessage (env : Env) (st : State) (transport : list Settled)
  : Config :=
  fold_left resume transport (enter env st).

End WithParser.

(** The initial values of the [useState] cells, for the session id and the
    date drawn at mount. *)
Definition initial (sessionId : jsstring) (now : N) : State :=
  mkState [mkChatMessage (u "1") (u "Hello! How can I help you today?")
             assistant now None]
          [] false sessionId.

(** [handleReset], for the session id and the date it draws. *)
Definition handleReset (newSessionId : jsstring) (now : N) (st : State) : State :=
  mkState [mkChatMessage (u "1")
             (u "Hello! I'm back to help. What can I do for you?")
             assistant now None]
          [] false newSessionId.

(** A click on the Reset button, whatever the handler is doing. *)
Definition reset_clicked (newSessionId : jsstring) (now : N) (c : Config) : Config :=
  mkConfig (handleReset newSessionId now (ui c)) (console c) (fetched c) (phase c).

(** The condition under which a message is drawn as the Thinking loader
    instead of its content: [message.isStreaming] is truthy and
    [message.content] is the empty string. *)
Definition shows_loader (m : ChatMessage) : bool :=
  match isStreaming m with
  | Some true => negb (JsString.truthy (content m))
  | _ => false
  end.

(** The [disabled] property of the submit button:
    [!inputMessage.trim() || isTyping]. *)
Definition submit_disabled (st : State) : bool :=
  negb (JsString.truthy (JsString.trim (inputMessage st))) || isTyping st.

(** The [status] property of the submit button. *)
Definition submit_status (st : State) : jsstring :=
  if isTyping st then u "streaming" else u "ready".

(** The message the handler is working on, while it is suspended. *)
Definition phase_bot (p : Phase) : option jsstring :=
  match p with
  | AwaitFetch bot => Some bot
  | Reading bot _ _ => Some bot
  | Returned => None
  end.

(** What a session may do to one message: nothing at all unless its id is
    that of the handler's message, and then only to content and streaming
    flag. *)
Definition touched (bot : jsstring) (m m' : ChatMessage) : Prop :=
  id m' = id m /\ role m' = role m /\ timestamp m' = timestamp m
  /\ (id m <> bot -> m' = m).

(** The pieces of a split joined again by line feeds. *)
Fixpoint join_lines (pieces : list jsstring) : jsstring :=
  match pieces with
  | [] => []
  | [piece] => piece
  | piece :: rest => piece ++ JsString.LF :: join_lines rest
  end.

End ChatInterface.

(* ================================================================== *)
(** ** src/hooks/useStreamingChat.ts *)
(* ================================================================== *)

Module UseStreamingChat.

(** A [UIMessage].  The declared type of [parts] is [UIMessagePart[]]; the
    hook builds it under [@ts-ignore], so the field holds whatever value
    the code puts there. *)
Record UIMessage : Type := mkUIMessage {
  id : jsstring;
  role : Role;
  parts : JsVal
}.

(** The hook's [useState] cells, its [abortControllerRef], and the
    [AbortController] objects allocated so far, each with the [aborted]
    flag of its signal.  A controller is named by its position. *)
Record State : Type := mkState {
  messages : list UIMessage;
  input : jsstring;
  isLoading : bool;
  error : option JsError;
  abortControllerRef : option nat;
  controllers : list bool
}.

Definition setMessages (f : list UIMessage -> list UIMessage) (st : State) : State :=
  mkState (f (messages st)) (input st) (isLoading st) (error st)
          (abortControllerRef st) (controllers st).

Definition setInput (s : jsstring) (st : State) : State :=
  mkState (messages st) s (isLoading st) (error st)
          (abortControllerRef st) (controllers st).

Definition setIsLoading (b : bool) (st : State) : State :=
  mkState (messages st) (input st) b (error st)
          (abortControllerRef st) (controllers st).

Definition setError (e : option JsError) (st : State) : State :=
  mkState (messages st) (input st) (isLoading st) e
          (abortControllerRef st) (controllers st).

Definition set_ref (r : option nat) (st : State) : State :=
  mkState (messages st) (input st) (isLoading st) (error st) r (controllers st).

(** [new AbortController()] *)
Definition new_AbortController (st : State) : nat * State :=
  (List.length (controllers st),
   mkState (messages st) (input st) (isLoading st) (error st)
           (abortControllerRef st) (controllers st ++ [false])).

Fixpoint set_aborted (a : nat) (cs : list bool) : list bool :=
  match a, cs with
  | _, [] => []
  | O, _ :: cs' => true :: cs'
  | S a', c :: cs' => c :: set_aborted a' cs'
  end.

(** [controller.abort()] *)
Definition abort (a : nat) (st : State) : State :=
  mkState (messages st) (input st) (isLoading st) (error st)
          (abortControllerRef st) (set_aborted a (controllers st)).

(** [signal.aborted] *)
Definition aborted (signal : nat) (st : State) : bool :=
  nth signal (controllers st) false.

(** [handleInputChange] *)
Definition handleInputChange (value : jsstring) (st : State) : State :=
  setInput value st.

(** [stop] *)
Definition stop (st : State) : State :=
  match abortControllerRef st with
  | Some a => set_ref None (abort a st)
  | None => st
  end.

(** The [DOMException] with which an aborted [fetch] or [read] rejects.
    The hook reads its [name] only. *)
Definition AbortError : JsError :=
  mkError (u "AbortError") (u "signal is aborted without reason").

Record Env : Type := mkEnv {
  apiEndpoint : jsstring;
  userMessageId : jsstring;
  assistantMessageId : jsstring
}.

Inductive Phase : Type :=
| AwaitFetch (signal : nat)
| Reading (signal : nat) (decoder : TextDecoder.t) (isFirstChunk : bool)
| Returned.

Record Config : Type := mkConfig {
  st : State;
  fetched : list Request;
  phase : Phase
}.

(** What the caller of the hook and the transport do while the handler is
    suspended. *)
Inductive Event : Type :=
| Settle (s : Settled)
| CallStop.

Definition role_name (r : Role) : jsstring :=
  match r with user => u "user" | assistant => u "assistant" end.

Definition to_json (m : UIMessage) : JsVal :=
  JObj [(u "id", JStr (id m)); (u "role", JStr (role_name (role m)));
        (u "parts", parts m)].

(** [{ type: "text", text }] *)
Definition text_part (text : jsstring) : JsVal :=
  JObj [(u "type", JStr (u "text")); (u "text", JStr text)].

(** [prev[prev.length - 1]] *)
Definition last_message (prev : list UIMessage) : option UIMessage :=
  nth_error prev (List.length prev - 1).

(** The updater of the first chunk. *)
Definition push_assistant (env : Env) (chunk : jsstring) (prev : list UIMessage)
  : list UIMessage :=
  prev ++ [mkUIMessage (assistantMessageId env) assistant (JArr [text_part chunk])].

(** The updater of every later chunk:
    [updatedText = lastMessage.parts.text + chunk] and
    [parts: [{ ...lastMessage.parts, text: updatedText }]].
    [None] when an operand raises [TypeError]. *)
Definition append_to_last (chunk : jsstring) (prev : list UIMessage)
  : option (list UIMessage) :=
  match last_message prev with
  | None => None
  | Some lastMessage =>
      match Js.Get (parts lastMessage) (u "text") with
      | None => None
      | Some text =>
          match Js.add_string text chunk with
          | None => None
          | Some updatedText =>
              let updatedLastMessage :=
                mkUIMessage (id lastMessage) (role lastMessage)
                  (JArr [JObj (Js.set (u "text") (JStr updatedText)
                                      (Js.own_props (parts lastMessage)))]) in
              Some (removelast prev ++ [updatedLastMessage])
          end
      end
  end.

(** The [catch] block. *)
Definition on_catch (err : JsError) (c : Config) : Config :=
  if negb (JsString.eqb (name err) (u "AbortError"))
  then mkConfig (setError (Some err) (st c)) (fetched c) (phase c)
  else c.

(** The [finally] block; the handler returns after it. *)
Definition on_finally (c : Config) : Config :=
  mkConfig (set_ref None (setIsLoading false (st c))) (fetched c) Returned.

(** [handleSubmit] up to its first [await]. *)
Definition enter (env : Env) (s0 : State) : Config :=
  if negb (JsString.truthy (JsString.trim (input s0)))
  then mkConfig s0 [] Returned
  else
    let userMessage :=
      mkUIMessage (userMessageId env) user (JArr [text_part (input s0)]) in
    let newMessages := messages s0 ++ [userMessage] in
    let s1 := setMessages (fun _ => newMessages) s0 in
    let s2 := setInput [] s1 in
    let s3 := setIsLoading true s2 in
    let s4 := setError None s3 in
    let (a, s5) := new_AbortController s4 in
    let s6 := set_ref (Some a) s5 in
    mkConfig s6
             [mkRequest (apiEndpoint env)
                        [(u "Content-Type", u "application/json")]
                        (JObj [(u "messages", JArr (map to_json newMessages))])]
             (AwaitFetch a).

(** The handler from one [await] to the next when the awaited promise
    settles as [s]. *)
Definition settle (env : Env) (c : Config) (s : Settled) : Config :=
  match phase c, s with
  | AwaitFetch signal, Response ok statusText hasBody =>
      if negb ok || negb hasBody
      then on_finally
             (on_catch (mkError (u "Error")
                                (Js.or_string statusText (u "Failed to fetch stream")))
                       c)
      else mkConfig (st c) (fetched c) (Reading signal TextDecoder.new true)
  | AwaitFetch _, FetchRejected e => on_finally (on_catch e c)
  | Reading signal decoder isFirstChunk, Chunk value =>
      let (chunk, decoder') := TextDecoder.decode decoder value true in
      if isFirstChunk
      then mkConfig (setMessages (push_assistant env chunk) (st c)) (fetched c)
                    (Reading signal decoder' false)
      else mkConfig (setMessages
                       (fun prev => match append_to_last chunk prev with
                                    | Some next => next
                                    | None => prev
                                    end) (st c))
                    (fetched c) (Reading signal decoder' false)
  | Reading _ _ _, Done => on_finally c
  | Reading _ _ _, ReadRejected e => on_finally (on_catch e c)
  | _, _ => c
  end.

(** The signal the suspended handler passed to [fetch]. *)
Definition pending_signal (p : Phase) : option nat :=
  match p with
  | AwaitFetch signal => Some signal
  | Reading signal _ _ => Some signal
  | Returned => None
  end.

(** One event.  A call of [stop] that aborts the signal of the pending
    request makes the pending [await] reject with [AbortError]. *)
Definition resume (env : Env) (c : Config) (e : Event) : Config :=
  match e with
  | Settle s => settle env c s
  | CallStop =>
      let c' := mkConfig (stop (st c)) (fetched c) (phase c) in
      match pending_signal (phase c') with
      | Some signal =>
          if aborted signal (st c') then on_finally (on_catch AbortError c')
          else c'
      | None => c'
      end
  end.

(** [handleSubmit] run against the given events. *)
Definition handleSubmit (env : Env) (s0 : State) (events : list Event) : Config :=
  fold_left (resume env) events (enter env s0).

(** The [text] of every part of a message, for [parts] of the declared
    shape [UIMessagePart[]]. *)
Definition part_texts (m : UIMessage) : list (option JsVal) :=
  match parts m with
  | JArr elems => map (fun p => Js.Get p (u "text")) elems
  | _ => []
  end.

(** While the handler is suspended, the ref holds the controller whose
    signal the request carries, and no error has been recorded. *)
Definition in_flight (c : Config) : Prop :=
  match pending_signal (phase c) with
  | Some signal =>
      abortControllerRef (st c) = Some signal
      /\ signal < List.length (controllers (st c))
      /\ error (st c) = None
      /\ isLoading (st c) = true
  | None => True
  end.

(** The rejection a suspended handler can receive. *)
Definition rejection (p : Phase) (e : JsError) : Settled :=
  match p with
  | AwaitFetch _ => FetchRejected e
  | _ => ReadRejected e
  end.

(** The initial values of the hook's cells and ref. *)
Definition initial : State := mkState [] [] false None None [].

(** The texts that successive calls [decoder.decode(value, { stream: true })]
    return for the reads of a body. *)
Fixpoint decode_all (decoder : TextDecoder.t) (values : list (list byte))
  : list jsstring :=
  match values with
  | [] => []
  | value :: rest =>
      let (chunk, decoder') := TextDecoder.decode decoder value true in
      chunk :: decode_all decoder' rest
  end.

(** The one request a submit issues. *)
Definition request_of (env : Env) (s0 : State) : Request :=
  mkRequest (apiEndpoint env)
    [(u "Content-Type", u "application/json")]
    (JObj [(u "messages",
            JArr (map to_json
                    (messages s0
                     ++ [mkUIMessage (userMessageId env) user
                           (JArr [text_part (input s0)])])))]).

End UseStreamingChat.

(* ================================================================== *)
(** ** The vocabulary of the specification *)
(* ================================================================== *)

(** The UTF-8 encoder of the Encoding Standard, which the sender of a
    stream applies: it says which bytes stand for which character. *)
Module Utf8.

Definition encode (c : N) : list N :=
  (if c <=? 0x7F then [c]
   else if c <=? 0x7FF then [0xC0 + c / 64; 0x80 + c mod 64]
   else if c <=? 0xFFFF
   then [0xE0 + c / 4096; 0x80 + (c / 64) mod 64; 0x80 + c mod 64]
   else [0xF0 + c / 262144; 0x80 + (c / 4096) mod 64;
         0x80 + (c / 64) mod 64; 0x80 + c mod 64])%N.

(** A Unicode scalar value: a code point that is not a surrogate. *)
Definition scalar_value (c : N) : Prop :=
  (c < 0xD800 \/ 0xE000 <= c <= 0x10FFFF)%N.

End Utf8.

Module Spec.

(** The stream events of the specification (its data model and its
    EventParser), written from its words; the component itself has no such
    type. *)
Inductive StreamEvent : Type :=
| Chunk (text : jsstring)
| Complete (finishReason : jsstring)
| Malformed (rawRecord : jsstring).

Section WithParser.

Variable JSON_parse : jsstring -> option JsVal.

(** The EventParser of the specification: [{type: "chunk", data: string}]
    is a [Chunk], [{type: "complete", data: {finishReason: string}}] is a
    [Complete], every other record is [Malformed]. *)
Definition parse_event (line : jsstring) : StreamEvent :=
  match JSON_parse line with
  | Some (JObj props) =>
      match Js.lookup (u "type") props, Js.lookup (u "data") props with
      | Some (JStr ty), Some (JStr text) =>
          if JsString.eqb ty (u "chunk") then Chunk text else Malformed line
      | Some (JStr ty), Some (JObj dprops) =>
          if JsString.eqb ty (u "complete") then
            match Js.lookup (u "finishReason") dprops with
            | Some (JStr reason) => Complete reason
            | _ => Malformed line
            end
          else Malformed line
      | _, _ => Malformed line
      end
  | _ => Malformed line
  end.

Definition well_formed (line : jsstring) : Prop :=
  parse_event line <> Malformed line.

End WithParser.

Definition text_of (e : StreamEvent) : jsstring :=
  match e with
  | Chunk text => text
  | _ => []
  end.

(** The chunk texts of a sequence of events, concatenated in order. *)
Definition texts (events : list StreamEvent) : jsstring :=
  flat_map text_of events.

(** A complete line of the wire: no line feed inside, and not blank. *)
Definition complete_line (line : jsstring) : Prop :=
  ~ In JsString.LF line /\ JsString.trim line <> [].

(** Complete lines as they travel: each followed by a line feed. *)
Definition wire (lines : list jsstring) : jsstring :=
  flat_map (fun line => line ++ [JsString.LF]) lines.

(** The one finalisation the component has for a failure, that of its
    [catch] and [finally] blocks: the fallback text as content, and
    [isStreaming] false.  [ChatMessage] has no status or reason field. *)
Definition finalized_failed (m : ChatInterface.ChatMessage) : Prop :=
  ChatInterface.content m = ChatInterface.FALLBACK
  /\ ChatInterface.isStreaming m = Some false.

End Spec.

(* ================================================================== *)
(** ** Derived views of the NDJSON read loop *)
(* ================================================================== *)

Module ReadLoop.

(** The text [decoder.decode(value)] returns for one read. *)
Definition decoded (value : list byte) : jsstring :=
  fst (TextDecoder.decode TextDecoder.new value false).

(** Every line the component hands to [JSON.parse], over all reads. *)
Definition all_lines (reads : list (list byte)) : list jsstring :=
  flat_map (fun value => ChatInterface.lines_of (decoded value)) reads.

(** The assistant message the handler appended, with the given content
    and streaming flag. *)
Definition bot_message (env : ChatInterface.Env) (content : jsstring)
  (streaming : bool) : ChatInterface.ChatMessage :=
  ChatInterface.mkChatMessage (ChatInterface.botMessageId env) content assistant
    (ChatInterface.botTimestamp env) (Some streaming).

(** Where that message sits: after the messages already there and the
    user message. *)
Definition bot_position (st : ChatInterface.State) : nat :=
  S (List.length (ChatInterface.messages st)).

(** The read loop is running on the handler's message, whose content is
    [acc]. *)
Definition reading (env : ChatInterface.Env) (pos : nat) (acc : jsstring)
  (c : ChatInterface.Config) : Prop :=
  (exists decoder,
      ChatInterface.phase c
      = ChatInterface.Reading (ChatInterface.botMessageId env) decoder acc
      /\ TextDecoder.do_not_flush decoder = false)
  /\ nth_error (ChatInterface.messages (ChatInterface.ui c)) pos
     = Some (bot_message env acc true).

Section WithParser.

Variable JSON_parse : jsstring -> option JsVal.

(** [accumulatedResponse] after a line. *)
Definition accumulate1 (acc line : jsstring) : jsstring :=
  match ChatInterface.try_line JSON_parse acc line with
  | ChatInterface.Append acc' => acc'
  | _ => acc
  end.

Definition accumulate (acc : jsstring) (lines : list jsstring) : jsstring :=
  fold_left accumulate1 lines acc.

(** A line that the component does not apply: [JSON.parse] throws on it,
    or its [type] is not the string [chunk], or its [data] has no text
    conversion. *)
Definition skipped (line : jsstring) : Prop :=
  match JSON_parse line with
  | None => True
  | Some data =>
      Js.Get data (u "type") <> Some (JStr (u "chunk"))
      \/ exists d, Js.Get data (u "data") = Some d /\ Js.ToString d = None
  end.

End WithParser.

End ReadLoop.

(* ================================================================== *)
(** ** Invariants of a session *)
(* ================================================================== *)

Module Lifecycle.

(** The user message [handleSendMessage] appends. *)
Definition user_message (env : ChatInterface.Env) (st : ChatInterface.State)
  : ChatInterface.ChatMessage :=
  ChatInterface.mkChatMessage (ChatInterface.userMessageId env)
    (JsString.trim (ChatInterface.inputMessage st)) user
    (ChatInterface.userTimestamp env) None.

(** The one request [handleSendMessage] issues. *)
Definition request_of (st : ChatInterface.State) : Request :=
  mkRequest (ChatInterface.BASE_URL ++ u "/api/bot/user-chat")
    [(u "Content-Type", u "application/json");
     (u "Accept", u "application/x-ndjson")]
    (JObj [(u "query", JStr (JsString.trim (ChatInterface.inputMessage st)));
           (u "sessionId", JStr (ChatInterface.sessionId st))]).

(** What holds of the component at every moment of a session started
    from [st0]: the list is the one at entry up to the handler's message,
    the input is empty, one request has been issued, and the typing flag
    and the streaming flag of the handler's message are set exactly while
    the handler is suspended. *)
Definition chat_session (env : ChatInterface.Env) (st0 : ChatInterface.State)
  (c : ChatInterface.Config) : Prop :=
  let bot := ChatInterface.botMessageId env in
  Forall2 (ChatInterface.touched bot)
    (ChatInterface.messages st0
     ++ [user_message env st0; ReadLoop.bot_message env [] true])
    (ChatInterface.messages (ChatInterface.ui c))
  /\ ChatInterface.inputMessage (ChatInterface.ui c) = []
  /\ ChatInterface.sessionId (ChatInterface.ui c) = ChatInterface.sessionId st0
  /\ ChatInterface.fetched c = [request_of st0]
  /\ match ChatInterface.phase c with
     | ChatInterface.Returned =>
         ChatInterface.isTyping (ChatInterface.ui c) = false
         /\ (exists content,
                nth_error (ChatInterface.messages (ChatInterface.ui c))
                          (ReadLoop.bot_position st0)
                = Some (ReadLoop.bot_message env content false))
         /\ Forall (fun m => ChatInterface.id m = bot ->
                             ChatInterface.isStreaming m = Some false)
                   (ChatInterface.messages (ChatInterface.ui c))
     | p =>
         ChatInterface.phase_bot p = Some bot
         /\ ChatInterface.isTyping (ChatInterface.ui c) = true
         /\ exists content,
              nth_error (ChatInterface.messages (ChatInterface.ui c))
                        (ReadLoop.bot_position st0)
              = Some (ReadLoop.bot_message env content true)
     end.

(** The user message [handleSubmit] appends. *)
Definition hook_user_message (env : UseStreamingChat.Env)
  (s0 : UseStreamingChat.State) : UseStreamingChat.UIMessage :=
  UseStreamingChat.mkUIMessage (UseStreamingChat.userMessageId env) user
    (JArr [UseStreamingChat.text_part (UseStreamingChat.input s0)]).

(** The assistant message of the hook, holding one part. *)
Definition hook_assistant (env : UseStreamingChat.Env) (part : JsVal)
  : UseStreamingChat.UIMessage :=
  UseStreamingChat.mkUIMessage (UseStreamingChat.assistantMessageId env)
    assistant (JArr [part]).

(** What holds of the hook at every moment of a submit started from
    [s0]. *)
Definition hook_session (env : UseStreamingChat.Env) (s0 : UseStreamingChat.State)
  (c : UseStreamingChat.Config) : Prop :=
  let base := UseStreamingChat.messages s0 ++ [hook_user_message env s0] in
  let msgs := UseStreamingChat.messages (UseStreamingChat.st c) in
  UseStreamingChat.input (UseStreamingChat.st c) = []
  /\ UseStreamingChat.fetched c = [UseStreamingChat.request_of env s0]
  /\ match UseStreamingChat.phase c with
     | UseStreamingChat.AwaitFetch _ => msgs = base
     | UseStreamingChat.Reading _ _ true => msgs = base
     | UseStreamingChat.Reading _ _ false =>
         exists part, msgs = base ++ [hook_assistant env part]
     | UseStreamingChat.Returned =>
         (msgs = base \/ exists part, msgs = base ++ [hook_assistant env part])
         /\ UseStreamingChat.isLoading (UseStreamingChat.st c) = false
         /\ UseStreamingChat.abortControllerRef (UseStreamingChat.st c) = None
     end.

End Lifecycle.

(* ================================================================== *)
(** ** Concrete sessions *)
(* ================================================================== *)

Module Fixtures.

(** The component as it is mounted, with a question typed in. *)
Definition chat0 : ChatInterface.State :=
  ChatInterface.mkState
    [ChatInterface.mkChatMessage (u "1") (u "Hello! How can I help you today?")
       assistant 1000 None]
    (u " Say hello ") false (u "session-A").

Definition chat_env : ChatInterface.Env :=
  ChatInterface.mkEnv (u "id-user") 2000 (u "id-bot") 2001.

(** The scenario of the specification, delivered in two reads. *)
Definition hello_records : list (list jsstring) :=
  [[q "{'type':'chunk','data':'Hel'}"; q "{'type':'chunk','data':'lo'}"];
   [q "{'type':'complete','data':{'finishReason':'stop'}}"]].

Definition hello_reads : list (list byte) :=
  [qbytes "{'type':'chunk','data':'Hel'}" ++ [x0a]
   ++ qbytes "{'type':'chunk','data':'lo'}" ++ [x0a];
   qbytes "{'type':'complete','data':{'finishReason':'stop'}}" ++ [x0a]].

(** One record split across two reads (the example of the specification). *)
Definition split_reads : list (list byte) :=
  [qbytes "{'type':'ch"; qbytes "unk','data':'x'}" ++ [x0a]].

(** A chunk after the complete event. *)
Definition late_chunk_reads : list (list byte) :=
  [qbytes "{'type':'chunk','data':'Hel'}" ++ [x0a];
   qbytes "{'type':'complete','data':{'finishReason':'stop'}}" ++ [x0a]].

Definition late_chunk : list byte := qbytes "{'type':'chunk','data':'lo'}" ++ [x0a].

(** A chunk event without its [data]. *)
Definition no_data_line : jsstring := q "{'type':'chunk'}".

Definition no_data_reads : list (list byte) :=
  [qbytes "{'type':'chunk','data':'Hi'}" ++ [x0a];
   qbytes "{'type':'chunk'}" ++ [x0a]].

(** The hook with a question typed in. *)
Definition hook0 : UseStreamingChat.State :=
  UseStreamingChat.mkState [] (u "hey") false None None [].

Definition hook_env : UseStreamingChat.Env :=
  UseStreamingChat.mkEnv (u "/api/chat") (u "id-user") (u "id-assistant").

(** The raw-text scenario of the specification. *)
Definition hi_there : list UseStreamingChat.Event :=
  [UseStreamingChat.Settle (Response true (u "OK") true);
   UseStreamingChat.Settle (Chunk (bytes "Hi "));
   UseStreamingChat.Settle (Chunk (bytes "there"));
   UseStreamingChat.Settle Done].

(** The two bytes of U+00E9 in UTF-8. *)
Definition e_acute_1 : byte := xc3.
Definition e_acute_2 : byte := xa9.

(** A chunk record whose text is U+00E9, cut between the two bytes of
    that character. *)
Definition split_char_reads : list (list byte) :=
  [qbytes "{'type':'chunk','data':'" ++ [e_acute_1];
   [e_acute_2] ++ qbytes "'}" ++ [x0a]].

End Fixtures.

(* ================================================================== *)
(** * Properties *)
(* ================================================================== *)

(** ** Strings and framing *)

Lemma eqb_refl (s : jsstring) : JsString.eqb s s = true.
Proof.
  induction s as [|c s IH]; simpl; [reflexivity|].
  now rewrite N.eqb_refl, IH.
Qed.

Lemma eqb_eq (a b : jsstring) : JsString.eqb a b = true <-> a = b.
Proof.
  split; [|intros ->; apply eqb_refl].
  revert b; induction a as [|x a IH]; intros [|y b]; simpl; try discriminate; auto.
  intros H. apply andb_true_iff in H as [Hx Hab].
  apply N.eqb_eq in Hx. f_equal; auto.
Qed.

Lemma eqb_neq (a b : jsstring) : JsString.eqb a b = false <-> a <> b.
Proof.
  destruct (JsString.eqb a b) eqn:E.
  - apply eqb_eq in E. split; [discriminate | congruence].
  - split; [|reflexivity]. intros _ H. apply eqb_eq in H. congruence.
Qed.

Lemma truthy_true (s : jsstring) : JsString.truthy s = true <-> s <> [].
Proof. destruct s; simpl; split; congruence. Qed.

Lemma split_lines_cons_line (s t : jsstring) :
  ~ In JsString.LF s ->
  JsString.split_lines (s ++ JsString.LF :: t) = s :: JsString.split_lines t.
Proof.
  induction s as [|c s IH]; intros Hs.
  - reflexivity.
  - cbn [app JsString.split_lines].
    destruct (N.eqb_spec c JsString.LF) as [->|_].
    + exfalso. apply Hs. now left.
    + rewrite IH; [reflexivity|]. intros H. apply Hs. now right.
Qed.

Lemma split_lines_single (s : jsstring) :
  ~ In JsString.LF s -> JsString.split_lines s = [s].
Proof.
  induction s as [|c s IH]; intros Hs.
  - reflexivity.
  - cbn [JsString.split_lines].
    destruct (N.eqb_spec c JsString.LF) as [->|_].
    + exfalso. apply Hs. now left.
    + rewrite IH; [reflexivity|]. intros H. apply Hs. now right.
Qed.

Lemma split_lines_wire (pre : list jsstring) (t : jsstring) :
  Forall (fun line => ~ In JsString.LF line) pre ->
  JsString.split_lines (Spec.wire pre ++ t) = pre ++ JsString.split_lines t.
Proof.
  induction 1 as [|line pre Hline _ IH]; [reflexivity|].
  unfold Spec.wire in *. cbn [flat_map].
  rewrite <- !app_assoc. cbn [app].
  rewrite split_lines_cons_line by assumption.
  now rewrite IH.
Qed.

Lemma lines_of_wire_app (pre : list jsstring) (t : jsstring) :
  Forall Spec.complete_line pre ->
  ChatInterface.lines_of (Spec.wire pre ++ t) = pre ++ ChatInterface.lines_of t.
Proof.
  intros Hpre. unfold ChatInterface.lines_of.
  rewrite split_lines_wire.
  - rewrite filter_app. f_equal.
    apply forallb_filter_id. apply forallb_forall.
    intros line Hin. rewrite Forall_forall in Hpre.
    destruct (Hpre line Hin) as [_ Hnb]. now apply truthy_true.
  - eapply Forall_impl; [|exact Hpre]. now intros line [H _].
Qed.

Lemma lines_of_wire (lines : list jsstring) :
  Forall Spec.complete_line lines ->
  ChatInterface.lines_of (Spec.wire lines) = lines.
Proof.
  intros H. rewrite <- (app_nil_r (Spec.wire lines)).
  rewrite lines_of_wire_app by assumption.
  cbn. apply app_nil_r.
Qed.

Lemma lines_of_fragment (a : jsstring) :
  Spec.complete_line a -> ChatInterface.lines_of a = [a].
Proof.
  intros [Hlf Hnb]. unfold ChatInterface.lines_of.
  rewrite split_lines_single by assumption. cbn.
  apply truthy_true in Hnb. now rewrite Hnb.
Qed.

Lemma Get_object (props : list (jsstring * JsVal)) (k : jsstring) :
  Js.Get (JObj props) k
  = Some (match Js.lookup k props with Some x => x | None => JUndefined end).
Proof. unfold Js.Get. cbn. now destruct (Js.lookup k props). Qed.

(** ** The NDJSON read loop *)

Lemma decode_flushed (td : TextDecoder.t) (value : list byte) :
  TextDecoder.do_not_flush td = false ->
  TextDecoder.decode td value false = TextDecoder.decode TextDecoder.new value false.
Proof. intros H. unfold TextDecoder.decode. now rewrite H. Qed.

Lemma decode_do_not_flush (td : TextDecoder.t) (value : list byte) (stream : bool) :
  TextDecoder.do_not_flush (snd (TextDecoder.decode td value stream)) = stream.
Proof.
  unfold TextDecoder.decode.
  destruct (TextDecoder.run _ _) as [d1 out1].
  destruct (if stream then _ else _) as [d2 out2].
  destruct (TextDecoder.serialize _ _) as [items bom]. reflexivity.
Qed.

Lemma nth_error_set_content (bot c : jsstring) (prev : list ChatInterface.ChatMessage)
  (pos : nat) (m : ChatInterface.ChatMessage) :
  nth_error prev pos = Some m ->
  ChatInterface.id m = bot ->
  nth_error (ChatInterface.set_content bot c prev) pos
  = Some (ChatInterface.mkChatMessage bot c (ChatInterface.role m)
            (ChatInterface.timestamp m) (ChatInterface.isStreaming m)).
Proof.
  intros Hnth Hid. unfold ChatInterface.set_content.
  rewrite nth_error_map, Hnth. cbn. rewrite Hid, eqb_refl. reflexivity.
Qed.

Lemma nth_error_set_not_streaming (bot : jsstring)
  (prev : list ChatInterface.ChatMessage) (pos : nat) (m : ChatInterface.ChatMessage) :
  nth_error prev pos = Some m ->
  ChatInterface.id m = bot ->
  nth_error (ChatInterface.set_not_streaming bot prev) pos
  = Some (ChatInterface.mkChatMessage bot (ChatInterface.content m)
            (ChatInterface.role m) (ChatInterface.timestamp m) (Some false)).
Proof.
  intros Hnth Hid. unfold ChatInterface.set_not_streaming.
  rewrite nth_error_map, Hnth. cbn. rewrite Hid, eqb_refl. reflexivity.
Qed.

Section NdjsonSession.

Variable JSON_parse : jsstring -> option JsVal.

Local Abbreviation process_line := (ChatInterface.process_line JSON_parse).
Local Abbreviation process_lines := (ChatInterface.process_lines JSON_parse).
Local Abbreviation resume := (ChatInterface.resume JSON_parse).
Local Abbreviation accumulate := (ReadLoop.accumulate JSON_parse).

(** A line touches neither the phase nor the requests, and advances
    [accumulatedResponse] by [accumulate1]. *)
Lemma process_line_frame (bot : jsstring) (c : ChatInterface.Config)
  (acc line : jsstring) :
  let r := process_line bot (c, acc) line in
  ChatInterface.phase (fst r) = ChatInterface.phase c
  /\ ChatInterface.fetched (fst r) = ChatInterface.fetched c
  /\ snd r = ReadLoop.accumulate1 JSON_parse acc line
  /\ ChatInterface.inputMessage (ChatInterface.ui (fst r))
     = ChatInterface.inputMessage (ChatInterface.ui c)
  /\ ChatInterface.isTyping (ChatInterface.ui (fst r))
     = ChatInterface.isTyping (ChatInterface.ui c).
Proof.
  unfold ChatInterface.process_line, ReadLoop.accumulate1.
  destruct (ChatInterface.try_line JSON_parse acc line); cbn; auto.
Qed.

Lemma process_line_bot (env : ChatInterface.Env) (pos : nat)
  (c : ChatInterface.Config) (acc line : jsstring) :
  nth_error (ChatInterface.messages (ChatInterface.ui c)) pos
  = Some (ReadLoop.bot_message env acc true) ->
  nth_error (ChatInterface.messages
               (ChatInterface.ui
                  (fst (process_line (ChatInterface.botMessageId env) (c, acc) line))))
            pos
  = Some (ReadLoop.bot_message env (ReadLoop.accumulate1 JSON_parse acc line) true).
Proof.
  intros H.
  unfold ChatInterface.process_line, ReadLoop.accumulate1.
  destruct (ChatInterface.try_line JSON_parse acc line) as [acc'| | |];
    cbn; try exact H.
  now rewrite (nth_error_set_content (ChatInterface.botMessageId env) acc' _ _ _
                 H eq_refl).
Qed.

Lemma process_lines_bot (env : ChatInterface.Env) (pos : nat)
  (lines : list jsstring) (c : ChatInterface.Config) (acc : jsstring) :
  nth_error (ChatInterface.messages (ChatInterface.ui c)) pos
  = Some (ReadLoop.bot_message env acc true) ->
  let r := process_lines (ChatInterface.botMessageId env) (c, acc) lines in
  nth_error (ChatInterface.messages (ChatInterface.ui (fst r))) pos
  = Some (ReadLoop.bot_message env (accumulate acc lines) true)
  /\ snd r = accumulate acc lines
  /\ ChatInterface.phase (fst r) = ChatInterface.phase c.
Proof.
  revert c acc. induction lines as [|line lines IH]; intros c acc H.
  - cbn. auto.
  - cbn [process_lines ChatInterface.process_lines fold_left].
    pose proof (process_line_frame (ChatInterface.botMessageId env) c acc line)
      as (Hph & _ & Hacc & _).
    pose proof (process_line_bot env pos c acc line H) as Hbot.
    destruct (process_line (ChatInterface.botMessageId env) (c, acc) line)
      as [c1 acc1] eqn:E.
    cbn [fst snd] in *. subst acc1.
    specialize (IH c1 _ Hbot). cbn zeta in IH.
    unfold ChatInterface.process_lines in IH.
    destruct IH as (IH1 & IH2 & IH3).
    unfold ReadLoop.accumulate in *. cbn [fold_left].
    repeat split; [exact IH1 | exact IH2 | congruence].
Qed.

(** One read in the read loop. *)
Lemma resume_chunk (env : ChatInterface.Env) (pos : nat) (acc : jsstring)
  (c : ChatInterface.Config) (value : list byte) :
  ReadLoop.reading env pos acc c ->
  ReadLoop.reading env pos
    (accumulate acc (ChatInterface.lines_of (ReadLoop.decoded value)))
    (resume c (Chunk value)).
Proof.
  intros [(decoder & Hphase & Hflush) Hbot].
  unfold ChatInterface.resume. rewrite Hphase.
  rewrite (decode_flushed _ value Hflush).
  unfold ReadLoop.decoded.
  pose proof (decode_do_not_flush TextDecoder.new value false) as Hdnf.
  destruct (TextDecoder.decode TextDecoder.new value false) as [chunk decoder'].
  cbn [fst snd] in *.
  pose proof (process_lines_bot env pos (ChatInterface.lines_of chunk) c acc Hbot)
    as (H1 & H2 & H3).
  destruct (process_lines (ChatInterface.botMessageId env) (c, acc)
              (ChatInterface.lines_of chunk)) as [c' acc'].
  cbn [fst snd] in *. subst acc'.
  split; cbn.
  - exists decoder'. auto.
  - exact H1.
Qed.

(** The whole read loop. *)
Lemma resume_chunks (env : ChatInterface.Env) (pos : nat)
  (reads : list (list byte)) (acc : jsstring) (c : ChatInterface.Config) :
  ReadLoop.reading env pos acc c ->
  ReadLoop.reading env pos (accumulate acc (ReadLoop.all_lines reads))
    (fold_left resume (map Chunk reads) c).
Proof.
  revert acc c. induction reads as [|value reads IH]; intros acc c H.
  - exact H.
  - cbn [map fold_left ReadLoop.all_lines flat_map].
    unfold ReadLoop.accumulate. rewrite fold_left_app.
    apply IH. now apply resume_chunk.
Qed.

Lemma enter_sends (env : ChatInterface.Env) (st : ChatInterface.State) :
  JsString.trim (ChatInterface.inputMessage st) <> [] ->
  ChatInterface.isTyping st = false ->
  ChatInterface.phase (ChatInterface.enter env st)
  = ChatInterface.AwaitFetch (ChatInterface.botMessageId env)
  /\ ChatInterface.console (ChatInterface.enter env st) = []
  /\ ChatInterface.messages (ChatInterface.ui (ChatInterface.enter env st))
     = ChatInterface.messages st
       ++ [ChatInterface.mkChatMessage (ChatInterface.userMessageId env)
             (JsString.trim (ChatInterface.inputMessage st)) user
             (ChatInterface.userTimestamp env) None;
           ReadLoop.bot_message env [] true].
Proof.
  intros Hin Hty. unfold ChatInterface.enter.
  apply truthy_true in Hin. rewrite Hin, Hty. cbn.
  rewrite <- app_assoc. auto.
Qed.

Lemma nth_error_bot {A : Type} (l : list A) (x y : A) :
  nth_error (l ++ [x; y]) (S (List.length l)) = Some y.
Proof. induction l; cbn; auto. Qed.

(** After a successful response the read loop starts on the appended
    message, with nothing accumulated. *)
Lemma session_start (env : ChatInterface.Env) (st : ChatInterface.State)
  (statusText : jsstring) :
  JsString.trim (ChatInterface.inputMessage st) <> [] ->
  ChatInterface.isTyping st = false ->
  ReadLoop.reading env (ReadLoop.bot_position st) []
    (resume (ChatInterface.enter env st) (Response true statusText true)).
Proof.
  intros Hin Hty.
  destruct (enter_sends env st Hin Hty) as (Hph & _ & Hmsgs).
  unfold ChatInterface.resume. rewrite Hph. cbn.
  split; cbn.
  - exists TextDecoder.new. auto.
  - rewrite Hmsgs. apply nth_error_bot.
Qed.

(** When the reader signals [done] the message keeps its content and
    stops streaming. *)
Lemma session_done (env : ChatInterface.Env) (pos : nat) (acc : jsstring)
  (c : ChatInterface.Config) :
  ReadLoop.reading env pos acc c ->
  nth_error (ChatInterface.messages (ChatInterface.ui (resume c Done))) pos
  = Some (ReadLoop.bot_message env acc false)
  /\ ChatInterface.isTyping (ChatInterface.ui (resume c Done)) = false
  /\ ChatInterface.phase (resume c Done) = ChatInterface.Returned.
Proof.
  intros [(decoder & Hphase & _) Hbot].
  unfold ChatInterface.resume. rewrite Hphase. cbn.
  rewrite (nth_error_set_not_streaming (ChatInterface.botMessageId env) _ _ _
             Hbot eq_refl).
  auto.
Qed.

(** A session whose response is successful and whose body ends normally:
    the content of the handler's message is what the lines of all reads
    accumulate to. *)
Lemma session_result (env : ChatInterface.Env) (st : ChatInterface.State)
  (statusText : jsstring) (reads : list (list byte)) :
  JsString.trim (ChatInterface.inputMessage st) <> [] ->
  ChatInterface.isTyping st = false ->
  let final :=
    ChatInterface.handleSendMessage JSON_parse env st
      (Response true statusText true :: map Chunk reads ++ [Done]) in
  nth_error (ChatInterface.messages (ChatInterface.ui final))
            (ReadLoop.bot_position st)
  = Some (ReadLoop.bot_message env (accumulate [] (ReadLoop.all_lines reads)) false)
  /\ ChatInterface.isTyping (ChatInterface.ui final) = false
  /\ ChatInterface.phase final = ChatInterface.Returned.
Proof.
  intros Hin Hty final. subst final.
  unfold ChatInterface.handleSendMessage.
  cbn [fold_left]. rewrite fold_left_app. cbn [fold_left].
  apply session_done.
  apply resume_chunks. now apply session_start.
Qed.

(** The component agrees with the EventParser of the specification on
    well-formed records. *)
Lemma try_line_chunk (acc line text : jsstring) :
  Spec.parse_event JSON_parse line = Spec.Chunk text ->
  ChatInterface.try_line JSON_parse acc line = ChatInterface.Append (acc ++ text).
Proof.
  unfold Spec.parse_event, ChatInterface.try_line.
  destruct (JSON_parse line) as [[| | | | | |props]|]; try discriminate.
  rewrite !Get_object.
  destruct (Js.lookup (u "type") props) as [[| | | |ty| |]|]; try discriminate.
  destruct (Js.lookup (u "data") props) as [[| | | |d| |dprops]|]; try discriminate.
  - cbn [Js.strict_eq_string].
    destruct (JsString.eqb ty (u "chunk")); [|discriminate].
    intros [= ->]. reflexivity.
  - destruct (JsString.eqb ty (u "complete")); [|discriminate].
    destruct (Js.lookup (u "finishReason") dprops) as [[| | | |r| |]|];
      discriminate.
Qed.

Lemma try_line_complete (acc line reason : jsstring) :
  Spec.parse_event JSON_parse line = Spec.Complete reason ->
  ChatInterface.try_line JSON_parse acc line
  = ChatInterface.Finish (u "Stream finished: " ++ reason).
Proof.
  unfold Spec.parse_event, ChatInterface.try_line.
  destruct (JSON_parse line) as [[| | | | | |props]|]; try discriminate.
  rewrite !Get_object.
  destruct (Js.lookup (u "type") props) as [[| | | |ty| |]|]; try discriminate.
  destruct (Js.lookup (u "data") props) as [[| | | |d| |dprops]|]; try discriminate.
  - destruct (JsString.eqb ty (u "chunk")); discriminate.
  - cbn [Js.strict_eq_string].
    destruct (JsString.eqb ty (u "complete")) eqn:Ety; [|discriminate].
    apply eqb_eq in Ety. subst ty.
    replace (JsString.eqb (u "complete") (u "chunk")) with false by reflexivity.
    rewrite Get_object.
    destruct (Js.lookup (u "finishReason") dprops) as [[| | | |r| |]|];
      try discriminate.
    intros [= ->]. reflexivity.
Qed.

Lemma accumulate_well_formed (lines : list jsstring) (acc : jsstring) :
  Forall (Spec.well_formed JSON_parse) lines ->
  accumulate acc lines
  = acc ++ Spec.texts (map (Spec.parse_event JSON_parse) lines).
Proof.
  intros H. revert acc. induction H as [|line lines Hwf _ IH]; intros acc.
  - cbn. now rewrite app_nil_r.
  - unfold ReadLoop.accumulate in *. cbn [fold_left map].
    rewrite IH. unfold ReadLoop.accumulate1, Spec.texts. cbn [flat_map].
    unfold Spec.well_formed in Hwf.
    destruct (Spec.parse_event JSON_parse line) as [text|reason|raw] eqn:E.
    + rewrite (try_line_chunk acc line _ E). cbn. now rewrite app_assoc.
    + rewrite (try_line_complete acc line _ E). reflexivity.
    + exfalso. apply Hwf.
      revert E. unfold Spec.parse_event.
      repeat match goal with
             | |- context [match ?x with _ => _ end] => destruct x
             end; congruence.
Qed.

Lemma all_lines_wire (reads : list (list byte)) (records : list (list jsstring)) :
  Forall2 (fun value lines => ReadLoop.decoded value = Spec.wire lines)
          reads records ->
  Forall Spec.complete_line (List.concat records) ->
  ReadLoop.all_lines reads = List.concat records.
Proof.
  induction 1 as [|value lines reads records Hdec _ IH]; intros Hc.
  - reflexivity.
  - cbn [List.concat] in Hc. apply Forall_app in Hc as [Hl Hr].
    cbn [ReadLoop.all_lines flat_map List.concat].
    rewrite Hdec, lines_of_wire by assumption.
    f_equal. now apply IH.
Qed.

End NdjsonSession.

(** ** Claims on the NDJSON component *)

(** C2. In NDJSON mode, whenever the response is successful and every read
    decodes to complete lines (each newline-terminated, not blank) that are
    well-formed events, the handler's assistant message ends with the
    concatenation of the chunk events' [data] in delivery order as its
    content, no longer streaming; the lines "Hel", "lo" and a complete
    event give "Hello". *)
Theorem C2_ndjson_content_is_concatenation
  (JSON_parse : jsstring -> option JsVal)
  (env : ChatInterface.Env) (st : ChatInterface.State) (statusText : jsstring)
  (reads : list (list byte)) (records : list (list jsstring)) :
  JsString.trim (ChatInterface.inputMessage st) <> [] ->
  ChatInterface.isTyping st = false ->
  Forall2 (fun value lines => ReadLoop.decoded value = Spec.wire lines)
          reads records ->
  Forall (fun line => Spec.complete_line line /\ Spec.well_formed JSON_parse line)
         (List.concat records) ->
  let final :=
    ChatInterface.handleSendMessage JSON_parse env st
      (Response true statusText true :: map Chunk reads ++ [Done]) in
  nth_error (ChatInterface.messages (ChatInterface.ui final))
            (ReadLoop.bot_position st)
  = Some (ReadLoop.bot_message env
            (Spec.texts (map (Spec.parse_event JSON_parse) (List.concat records)))
            false)
  /\ ChatInterface.phase final = ChatInterface.Returned.
Proof.
  intros Hin Hty Hdec Hlines final.
  destruct (session_result JSON_parse env st statusText reads Hin Hty)
    as (Hbot & _ & Hphase).
  fold final in Hbot, Hphase. split; [|exact Hphase].
  rewrite Hbot. do 2 f_equal.
  rewrite (all_lines_wire reads records Hdec).
  - rewrite accumulate_well_formed; [reflexivity|].
    eapply Forall_impl; [|exact Hlines]. now intros line [_ H].
  - eapply Forall_impl; [|exact Hlines]. now intros line [H _].
Qed.

Ltac not_in_list :=
  let H := fresh in
  intros H; cbn in H;
  repeat (destruct H as [H|H]; [discriminate H|]); exact H.

Lemma C2_witness :
  let final :=
    ChatInterface.handleSendMessage JSON.parse Fixtures.chat_env Fixtures.chat0
      (Response true (u "OK") true :: map Chunk Fixtures.hello_reads ++ [Done]) in
  nth_error (ChatInterface.messages (ChatInterface.ui final)) 2
  = Some (ChatInterface.mkChatMessage (u "id-bot") (u "Hello") assistant 2001
            (Some false))
  /\ ChatInterface.phase final = ChatInterface.Returned.
Proof.
  apply (C2_ndjson_content_is_concatenation JSON.parse Fixtures.chat_env
           Fixtures.chat0 (u "OK") Fixtures.hello_reads Fixtures.hello_records).
  - vm_compute. discriminate.
  - reflexivity.
  - repeat constructor.
  - repeat constructor; try not_in_list; vm_compute; discriminate.
Defined.

Lemma trimStart_nil (s : jsstring) :
  JsString.trimStart s = [] <-> forallb JsString.is_white_space s = true.
Proof.
  induction s as [|c s IH]; cbn; [tauto|].
  destruct (JsString.is_white_space c); cbn; [exact IH|].
  split; discriminate.
Qed.

Lemma trimStart_idempotent (s : jsstring) :
  JsString.trimStart (JsString.trimStart s) = JsString.trimStart s.
Proof.
  induction s as [|c s IH]; cbn; [reflexivity|].
  destruct (JsString.is_white_space c) eqn:E; [exact IH|].
  cbn. now rewrite E.
Qed.

Lemma trim_nil (s : jsstring) :
  JsString.trim s = [] <-> forallb JsString.is_white_space s = true.
Proof.
  unfold JsString.trim, JsString.trimEnd.
  rewrite <- trimStart_nil. split.
  - intros H. apply (f_equal (@rev N)) in H. rewrite rev_involutive in H.
    cbn in H. apply trimStart_nil in H.
    rewrite forallb_forall in H.
    rewrite <- trimStart_idempotent. apply trimStart_nil. apply forallb_forall.
    intros c Hc. apply H. now apply in_rev in Hc.
  - intros ->. reflexivity.
Qed.

Lemma trim_app_nonblank (a b : jsstring) :
  JsString.trim a <> [] -> JsString.trim (a ++ b) <> [].
Proof.
  intros Ha H. apply Ha. apply trim_nil. apply trim_nil in H.
  rewrite forallb_app in H. now apply andb_true_iff in H.
Qed.

Lemma complete_line_app (a b : jsstring) :
  Spec.complete_line a -> Spec.complete_line b -> Spec.complete_line (a ++ b).
Proof.
  intros [Ha1 Ha2] [Hb1 _]. split.
  - intros H. apply in_app_or in H. tauto.
  - now apply trim_app_nonblank.
Qed.

(** C3, as the component does it.  The framing keeps no remainder between
    reads: a record whose text is cut into two non-blank pieces [a] and [b]
    by the boundary between two consecutive reads is handed to [JSON.parse]
    as two lines, [a] and then [b]; the same record lying within one read
    is emitted once, as the single line [a ++ b]. *)
Theorem C3_split_record_is_framed_per_read
  (read1 read2 whole : list byte) (pre post : list jsstring) (a b : jsstring) :
  Forall Spec.complete_line pre ->
  Forall Spec.complete_line post ->
  Spec.complete_line a ->
  Spec.complete_line b ->
  ReadLoop.decoded read1 = Spec.wire pre ++ a ->
  ReadLoop.decoded read2 = b ++ [JsString.LF] ++ Spec.wire post ->
  ReadLoop.decoded whole = Spec.wire (pre ++ [a ++ b] ++ post) ->
  ReadLoop.all_lines [read1; read2] = pre ++ [a; b] ++ post
  /\ ReadLoop.all_lines [whole] = pre ++ [a ++ b] ++ post.
Proof.
  intros Hpre Hpost Ha Hb H1 H2 Hw.
  unfold ReadLoop.all_lines. cbn [flat_map]. rewrite H1, H2, Hw, !app_nil_r.
  split.
  - rewrite lines_of_wire_app, lines_of_fragment by assumption.
    replace (b ++ [JsString.LF] ++ Spec.wire post) with (Spec.wire (b :: post))
      by (unfold Spec.wire; cbn [flat_map]; now rewrite <- app_assoc).
    rewrite lines_of_wire by (constructor; assumption).
    now rewrite <- app_assoc.
  - apply lines_of_wire.
    apply Forall_app. split; [assumption|].
    constructor; [now apply complete_line_app | assumption].
Qed.

Lemma C3_witness :
  ReadLoop.all_lines Fixtures.split_reads
  = [] ++ [q "{'type':'ch"; q "unk','data':'x'}"] ++ []
  /\ ReadLoop.all_lines [qbytes "{'type':'chunk','data':'x'}" ++ [x0a]]
     = [] ++ [q "{'type':'ch" ++ q "unk','data':'x'}"] ++ [].
Proof.
  apply (C3_split_record_is_framed_per_read
           (qbytes "{'type':'ch") (qbytes "unk','data':'x'}" ++ [x0a])
           (qbytes "{'type':'chunk','data':'x'}" ++ [x0a])
           [] [] (q "{'type':'ch") (q "unk','data':'x'}")).
  - constructor.
  - constructor.
  - split; [not_in_list | vm_compute; discriminate].
  - split; [not_in_list | vm_compute; discriminate].
  - reflexivity.
  - reflexivity.
  - reflexivity.
Defined.

(** C3 as stated fails: the record of the specification's example, cut
    inside the word chunk of its type field, reaches [JSON.parse] as two fragments and never as
    the record; neither fragment parses, and the text [x] is lost. *)
Lemma C3_counterexample :
  let record := q "{'type':'chunk','data':'x'}" in
  let final :=
    ChatInterface.handleSendMessage JSON.parse Fixtures.chat_env Fixtures.chat0
      (Response true (u "OK") true :: map Chunk Fixtures.split_reads ++ [Done]) in
  flat_map ReadLoop.decoded Fixtures.split_reads = record ++ [JsString.LF]
  /\ ReadLoop.all_lines Fixtures.split_reads
     = [q "{'type':'ch"; q "unk','data':'x'}"]
  /\ ~ In record (ReadLoop.all_lines Fixtures.split_reads)
  /\ Spec.parse_event JSON.parse record = Spec.Chunk (u "x")
  /\ nth_error (ChatInterface.messages (ChatInterface.ui final)) 2
     = Some (ChatInterface.mkChatMessage (u "id-bot") [] assistant 2001 (Some false)).
Proof.
  repeat split; try reflexivity.
  vm_compute. intros [H|[H|[]]]; discriminate H.
Qed.

(** C4, as the component does it.  A complete event changes neither the
    content nor the streaming flag of the assistant message (it is logged,
    nothing else), and a chunk event that arrives after it in the same
    session is applied like any other: its text is appended. *)
Theorem C4_chunk_after_complete_is_appended
  (JSON_parse : jsstring -> option JsVal) (env : ChatInterface.Env) (pos : nat)
  (c : ChatInterface.Config) (acc complete chunk reason text : jsstring) :
  nth_error (ChatInterface.messages (ChatInterface.ui c)) pos
  = Some (ReadLoop.bot_message env acc true) ->
  Spec.parse_event JSON_parse complete = Spec.Complete reason ->
  Spec.parse_event JSON_parse chunk = Spec.Chunk text ->
  let bot := ChatInterface.botMessageId env in
  let r1 := ChatInterface.process_line JSON_parse bot (c, acc) complete in
  let r2 := ChatInterface.process_line JSON_parse bot r1 chunk in
  ChatInterface.ui (fst r1) = ChatInterface.ui c
  /\ snd r1 = acc
  /\ ChatInterface.console (fst r1)
     = ChatInterface.console c ++ [ConsoleLog (u "Stream finished: " ++ reason)]
  /\ snd r2 = acc ++ text
  /\ nth_error (ChatInterface.messages (ChatInterface.ui (fst r2))) pos
     = Some (ReadLoop.bot_message env (acc ++ text) true).
Proof.
  intros Hbot Hcomplete Hchunk bot r1 r2.
  assert (E1 : r1 = (ChatInterface.mkConfig (ChatInterface.ui c)
                       (ChatInterface.console c
                        ++ [ConsoleLog (u "Stream finished: " ++ reason)])
                       (ChatInterface.fetched c) (ChatInterface.phase c), acc)).
  { subst r1. unfold ChatInterface.process_line.
    now rewrite (try_line_complete JSON_parse acc complete _ Hcomplete). }
  subst r2. rewrite E1. unfold ChatInterface.process_line.
  rewrite (try_line_chunk JSON_parse acc chunk _ Hchunk). cbn.
  repeat split.
  now rewrite (nth_error_set_content bot (acc ++ text) _ _ _ Hbot eq_refl).
Qed.

Lemma C4_witness :
  let c :=
    fold_left (ChatInterface.resume JSON.parse)
      [Response true (u "OK") true;
       Chunk (qbytes "{'type':'chunk','data':'Hel'}" ++ [x0a])]
      (ChatInterface.enter Fixtures.chat_env Fixtures.chat0) in
  let r1 :=
    ChatInterface.process_line JSON.parse (u "id-bot") (c, u "Hel")
      (q "{'type':'complete','data':{'finishReason':'stop'}}") in
  let r2 :=
    ChatInterface.process_line JSON.parse (u "id-bot") r1
      (q "{'type':'chunk','data':'lo'}") in
  ChatInterface.ui (fst r1) = ChatInterface.ui c
  /\ snd r1 = u "Hel"
  /\ ChatInterface.console (fst r1)
     = ChatInterface.console c ++ [ConsoleLog (u "Stream finished: " ++ u "stop")]
  /\ snd r2 = u "Hel" ++ u "lo"
  /\ nth_error (ChatInterface.messages (ChatInterface.ui (fst r2))) 2
     = Some (ReadLoop.bot_message Fixtures.chat_env (u "Hel" ++ u "lo") true).
Proof.
  intros c.
  apply (C4_chunk_after_complete_is_appended JSON.parse Fixtures.chat_env 2 c
           (u "Hel") (q "{'type':'complete','data':{'finishReason':'stop'}}")
           (q "{'type':'chunk','data':'lo'}") (u "stop") (u "lo"));
    reflexivity.
Defined.

(** C4 as stated fails: after the complete event has been processed, a
    late chunk still changes the content of the assistant message. *)
Lemma C4_counterexample :
  let before :=
    fold_left (ChatInterface.resume JSON.parse)
      (Response true (u "OK") true :: map Chunk Fixtures.late_chunk_reads)
      (ChatInterface.enter Fixtures.chat_env Fixtures.chat0) in
  let after := ChatInterface.resume JSON.parse before (Chunk Fixtures.late_chunk) in
  ChatInterface.console before = [ConsoleLog (u "Stream finished: stop")]
  /\ nth_error (ChatInterface.messages (ChatInterface.ui before)) 2
     = Some (ChatInterface.mkChatMessage (u "id-bot") (u "Hel") assistant 2001
               (Some true))
  /\ nth_error (ChatInterface.messages (ChatInterface.ui after)) 2
     = Some (ChatInterface.mkChatMessage (u "id-bot") (u "Hello") assistant 2001
               (Some true))
  /\ ChatInterface.ui after <> ChatInterface.ui before.
Proof.
  repeat split; try reflexivity.
  vm_compute. discriminate.
Qed.

Lemma strict_eq_string_true (v : JsVal) (s : jsstring) :
  Js.strict_eq_string v s = true <-> v = JStr s.
Proof.
  destruct v; cbn; try (split; discriminate).
  rewrite eqb_eq. split; congruence.
Qed.

Lemma skipped_try_line (JSON_parse : jsstring -> option JsVal)
  (acc line : jsstring) :
  ReadLoop.skipped JSON_parse line ->
  forall acc', ChatInterface.try_line JSON_parse acc line <> ChatInterface.Append acc'.
Proof.
  unfold ReadLoop.skipped, ChatInterface.try_line.
  destruct (JSON_parse line) as [data|]; [|discriminate].
  intros H acc'.
  destruct (Js.Get data (u "type")) as [ty|]; [|discriminate].
  destruct (Js.strict_eq_string ty (u "chunk")) eqn:Ety.
  - apply strict_eq_string_true in Ety. subst ty.
    destruct H as [H|(d & Hd & Hs)]; [congruence|].
    rewrite Hd, Hs. discriminate.
  - destruct (Js.strict_eq_string ty (u "complete")); [|discriminate].
    repeat match goal with
           | |- context [match ?x with _ => _ end] => destruct x
           end; discriminate.
Qed.

Lemma process_line_skipped (JSON_parse : jsstring -> option JsVal)
  (bot : jsstring) (c : ChatInterface.Config) (acc line : jsstring) :
  ReadLoop.skipped JSON_parse line ->
  let r := ChatInterface.process_line JSON_parse bot (c, acc) line in
  ChatInterface.ui (fst r) = ChatInterface.ui c
  /\ snd r = acc
  /\ ChatInterface.phase (fst r) = ChatInterface.phase c.
Proof.
  intros H. pose proof (skipped_try_line JSON_parse acc line H) as Hna.
  unfold ChatInterface.process_line.
  destruct (ChatInterface.try_line JSON_parse acc line) as [acc'| | |]; cbn; auto.
  now destruct (Hna acc').
Qed.

(** What the lines do to the state cells and to [accumulatedResponse] does
    not depend on the console. *)
Lemma process_lines_ui (JSON_parse : jsstring -> option JsVal) (bot : jsstring)
  (lines : list jsstring) (c c' : ChatInterface.Config) (acc : jsstring) :
  ChatInterface.ui c = ChatInterface.ui c' ->
  let r := ChatInterface.process_lines JSON_parse bot (c, acc) lines in
  let r' := ChatInterface.process_lines JSON_parse bot (c', acc) lines in
  ChatInterface.ui (fst r) = ChatInterface.ui (fst r') /\ snd r = snd r'.
Proof.
  revert c c' acc. induction lines as [|line lines IH]; intros c c' acc Hui.
  - cbn. auto.
  - cbn [ChatInterface.process_lines fold_left].
    assert (H : ChatInterface.ui
                  (fst (ChatInterface.process_line JSON_parse bot (c, acc) line))
                = ChatInterface.ui
                    (fst (ChatInterface.process_line JSON_parse bot (c', acc) line))
                /\ snd (ChatInterface.process_line JSON_parse bot (c, acc) line)
                   = snd (ChatInterface.process_line JSON_parse bot (c', acc) line)).
    { unfold ChatInterface.process_line.
      destruct (ChatInterface.try_line JSON_parse acc line); cbn;
        rewrite ?Hui; auto. }
    destruct (ChatInterface.process_line JSON_parse bot (c, acc) line) as [c1 a1].
    destruct (ChatInterface.process_line JSON_parse bot (c', acc) line) as [c2 a2].
    cbn [fst snd] in H. destruct H as [H1 ->].
    apply (IH c1 c2 a2 H1).
Qed.

(** C6, as the component does it.  A line on which [JSON.parse] throws, or
    whose [type] is not [chunk], or whose [data] has no text conversion,
    leaves the state cells and [accumulatedResponse] as they are and does
    not end the loop: the lines after it are applied as if it had not been
    there, and a read never takes the handler out of the read loop. *)
Theorem C6_skipped_line_changes_nothing
  (JSON_parse : jsstring -> option JsVal) (bot : jsstring)
  (c : ChatInterface.Config) (acc line : jsstring) (rest : list jsstring)
  (decoder : TextDecoder.t) (value : list byte) :
  ReadLoop.skipped JSON_parse line ->
  ChatInterface.phase c = ChatInterface.Reading bot decoder acc ->
  let r := ChatInterface.process_line JSON_parse bot (c, acc) line in
  let r1 := ChatInterface.process_lines JSON_parse bot (c, acc) (line :: rest) in
  let r2 := ChatInterface.process_lines JSON_parse bot (c, acc) rest in
  (ChatInterface.ui (fst r) = ChatInterface.ui c /\ snd r = acc
   /\ ChatInterface.phase (fst r) = ChatInterface.phase c)
  /\ (ChatInterface.ui (fst r1) = ChatInterface.ui (fst r2) /\ snd r1 = snd r2)
  /\ exists decoder' acc',
      ChatInterface.phase (ChatInterface.resume JSON_parse c (Chunk value))
      = ChatInterface.Reading bot decoder' acc'.
Proof.
  intros Hskip Hphase r r1 r2. subst r r1 r2.
  pose proof (process_line_skipped JSON_parse bot c acc line Hskip) as Hline.
  cbn zeta in Hline. split; [exact Hline|]. split.
  - unfold ChatInterface.process_lines at 1 3. cbn [fold_left].
    destruct Hline as (Hui & Hacc & _).
    destruct (ChatInterface.process_line JSON_parse bot (c, acc) line) as [c1 a1].
    cbn [fst snd] in Hui, Hacc. subst a1.
    apply (process_lines_ui JSON_parse bot rest c1 c acc Hui).
  - unfold ChatInterface.resume. rewrite Hphase.
    destruct (TextDecoder.decode decoder value false) as [chunk decoder'].
    destruct (ChatInterface.process_lines JSON_parse bot (c, acc)
                (ChatInterface.lines_of chunk)) as [c' acc'].
    cbn. eauto.
Qed.

Lemma C6_witness :
  let c :=
    ChatInterface.resume JSON.parse
      (ChatInterface.enter Fixtures.chat_env Fixtures.chat0)
      (Response true (u "OK") true) in
  let line := q "{'type':'ping'}" in
  let rest := [q "{'type':'chunk','data':'Hi'}"] in
  let r := ChatInterface.process_line JSON.parse (u "id-bot") (c, []) line in
  let r1 := ChatInterface.process_lines JSON.parse (u "id-bot") (c, []) (line :: rest) in
  let r2 := ChatInterface.process_lines JSON.parse (u "id-bot") (c, []) rest in
  (ChatInterface.ui (fst r) = ChatInterface.ui c /\ snd r = []
   /\ ChatInterface.phase (fst r) = ChatInterface.phase c)
  /\ (ChatInterface.ui (fst r1) = ChatInterface.ui (fst r2) /\ snd r1 = snd r2)
  /\ exists decoder' acc',
      ChatInterface.phase
        (ChatInterface.resume JSON.parse c (Chunk (bytes "<html>" ++ [x0a])))
      = ChatInterface.Reading (u "id-bot") decoder' acc'.
Proof.
  intros c line rest.
  apply (C6_skipped_line_changes_nothing JSON.parse (u "id-bot") c [] line rest
           TextDecoder.new (bytes "<html>" ++ [x0a])).
  - vm_compute. left. discriminate.
  - reflexivity.
Defined.

(** C6 as stated fails: a record of type chunk that lacks its [data] does
    not have the expected event shape, yet it is applied: the text
    "undefined" is appended to the content. *)
Lemma C6_counterexample :
  let final :=
    ChatInterface.handleSendMessage JSON.parse Fixtures.chat_env Fixtures.chat0
      (Response true (u "OK") true :: map Chunk Fixtures.no_data_reads ++ [Done]) in
  Spec.parse_event JSON.parse Fixtures.no_data_line
  = Spec.Malformed Fixtures.no_data_line
  /\ ReadLoop.all_lines Fixtures.no_data_reads
     = [q "{'type':'chunk','data':'Hi'}"; Fixtures.no_data_line]
  /\ nth_error (ChatInterface.messages (ChatInterface.ui final)) 2
     = Some (ChatInterface.mkChatMessage (u "id-bot") (u "Hiundefined") assistant
               2001 (Some false)).
Proof. repeat split; reflexivity. Qed.

Lemma accumulate_skipped (JSON_parse : jsstring -> option JsVal)
  (lines : list jsstring) (acc : jsstring) :
  Forall (ReadLoop.skipped JSON_parse) lines ->
  ReadLoop.accumulate JSON_parse acc lines = acc.
Proof.
  induction 1 as [|line lines Hskip _ IH]; [reflexivity|].
  unfold ReadLoop.accumulate in *. cbn [fold_left].
  replace (ReadLoop.accumulate1 JSON_parse acc line) with acc; [exact IH|].
  unfold ReadLoop.accumulate1.
  pose proof (skipped_try_line JSON_parse acc line Hskip) as Hna.
  destruct (ChatInterface.try_line JSON_parse acc line) as [acc'| | |]; auto.
  now destruct (Hna acc').
Qed.

(** C8, as the component does it.  When the body ends and no line of any
    read was applied as a chunk, the assistant message is finalised with
    its content still empty and [isStreaming] false, and the typing flag
    is cleared: it is not left streaming, and nothing marks it as failed. *)
Theorem C8_stream_without_chunks_ends_empty
  (JSON_parse : jsstring -> option JsVal)
  (env : ChatInterface.Env) (st : ChatInterface.State) (statusText : jsstring)
  (reads : list (list byte)) :
  JsString.trim (ChatInterface.inputMessage st) <> [] ->
  ChatInterface.isTyping st = false ->
  Forall (ReadLoop.skipped JSON_parse) (ReadLoop.all_lines reads) ->
  let final :=
    ChatInterface.handleSendMessage JSON_parse env st
      (Response true statusText true :: map Chunk reads ++ [Done]) in
  nth_error (ChatInterface.messages (ChatInterface.ui final))
            (ReadLoop.bot_position st)
  = Some (ReadLoop.bot_message env [] false)
  /\ ChatInterface.isTyping (ChatInterface.ui final) = false
  /\ ChatInterface.phase final = ChatInterface.Returned.
Proof.
  intros Hin Hty Hskip final.
  pose proof (session_result JSON_parse env st statusText reads Hin Hty) as H.
  cbn zeta in H. fold final in H.
  now rewrite (accumulate_skipped JSON_parse _ [] Hskip) in H.
Qed.

Lemma C8_witness :
  let final :=
    ChatInterface.handleSendMessage JSON.parse Fixtures.chat_env Fixtures.chat0
      (Response true (u "OK") true
       :: map Chunk [[x0a]; bytes "<html>" ++ [x0a]] ++ [Done]) in
  nth_error (ChatInterface.messages (ChatInterface.ui final)) 2
  = Some (ReadLoop.bot_message Fixtures.chat_env [] false)
  /\ ChatInterface.isTyping (ChatInterface.ui final) = false
  /\ ChatInterface.phase final = ChatInterface.Returned.
Proof.
  apply (C8_stream_without_chunks_ends_empty JSON.parse Fixtures.chat_env
           Fixtures.chat0 (u "OK") [[x0a]; bytes "<html>" ++ [x0a]]).
  - vm_compute. discriminate.
  - reflexivity.
  - repeat constructor.
Defined.

(** C8 as stated fails: when the reader signals [done] at once, the
    assistant message ends with empty content and [isStreaming] false; it
    does not carry the failure finalisation, and nothing is logged. *)
Lemma C8_counterexample :
  let final :=
    ChatInterface.handleSendMessage JSON.parse Fixtures.chat_env Fixtures.chat0
      [Response true (u "OK") true; Done] in
  let m := ChatInterface.mkChatMessage (u "id-bot") [] assistant 2001 (Some false) in
  nth_error (ChatInterface.messages (ChatInterface.ui final)) 2 = Some m
  /\ ~ Spec.finalized_failed m
  /\ ChatInterface.console final = [].
Proof.
  repeat split; try reflexivity.
  intros [H _]. vm_compute in H. discriminate H.
Qed.

(** ** The decoder *)

Lemma run_app (d : TextDecoder.utf8) (a b : list N) :
  TextDecoder.run d (a ++ b)
  = (fst (TextDecoder.run (fst (TextDecoder.run d a)) b),
     snd (TextDecoder.run d a)
     ++ snd (TextDecoder.run (fst (TextDecoder.run d a)) b)).
Proof.
  revert d. induction a as [|x a IH]; intros d.
  - cbn. now destruct (TextDecoder.run d b).
  - cbn [app TextDecoder.run].
    destruct (TextDecoder.handle d x) as [d1 out1].
    rewrite IH.
    destruct (TextDecoder.run d1 a) as [d2 out2]. cbn [fst snd].
    destruct (TextDecoder.run d2 b) as [d3 out3]. cbn [fst snd].
    now rewrite app_assoc.
Qed.

Lemma serialize_app (bom : bool) (a b : list N) :
  TextDecoder.serialize bom (a ++ b)
  = (fst (TextDecoder.serialize bom a)
     ++ fst (TextDecoder.serialize (snd (TextDecoder.serialize bom a)) b),
     snd (TextDecoder.serialize (snd (TextDecoder.serialize bom a)) b)).
Proof.
  destruct a as [|c a].
  - cbn. now destruct (TextDecoder.serialize bom b).
  - cbn [app TextDecoder.serialize].
    destruct bom; [|destruct (c =? 0xFEFF)%N]; cbn [fst snd];
      destruct b; cbn; now rewrite ?app_nil_r.
Qed.

(** With [{ stream: true }] a byte sequence decodes to the same text
    however it is cut into two chunks: the bytes of an unfinished
    character wait in the decoder for the next call. *)
Lemma decode_stream_split (td : TextDecoder.t) (a b : list byte) :
  let r1 := TextDecoder.decode td a true in
  let r2 := TextDecoder.decode (snd r1) b true in
  TextDecoder.decode td (a ++ b) true = (fst r1 ++ fst r2, snd r2).
Proof.
  unfold TextDecoder.decode. rewrite map_app, run_app.
  destruct (TextDecoder.run
              (TextDecoder.decoder
                 (if TextDecoder.do_not_flush td then td else TextDecoder.new))
              (map to_N a)) as [d1 out1].
  cbn [fst snd]. rewrite !app_nil_r.
  destruct (TextDecoder.run d1 (map to_N b)) as [d2 out2] eqn:E2.
  cbn [fst snd]. rewrite serialize_app.
  destruct (TextDecoder.serialize _ out1) as [i1 b1].
  cbn [fst snd TextDecoder.do_not_flush TextDecoder.decoder TextDecoder.BOM_seen].
  rewrite E2, app_nil_r.
  destruct (TextDecoder.serialize b1 out2) as [i2 b2].
  cbn [fst snd]. now rewrite flat_map_app.
Qed.


Section Utf8RoundTrip.

Local Open Scope N_scope.

Ltac lia_div := zify; Z.to_euclidean_division_equations; lia.

Lemma land_low (a b n : N) : b < 2 ^ n -> N.land (a * 2 ^ n) b = 0.
Proof.
  intros Hb. apply N.bits_inj. intros m. rewrite N.land_spec, N.bits_0.
  destruct (N.lt_ge_cases m n) as [H|H].
  - rewrite N.mul_pow2_bits_low by assumption. reflexivity.
  - rewrite <- (N.mod_small b (2 ^ n)) by assumption.
    rewrite N.mod_pow2_bits_high by assumption. apply andb_false_r.
Qed.

Lemma lor_shiftl (a b : N) :
  N.lor (N.shiftl a 6) (N.land b 0x3F) = a * 64 + b mod 64.
Proof.
  change 0x3F with (N.ones 6). rewrite N.land_ones, N.shiftl_mul_pow2.
  change (2 ^ 6) with 64.
  rewrite <- N.lxor_lor, <- N.add_nocarry_lxor; auto;
    apply (land_low a (b mod 64) 6); apply N.mod_lt; discriminate.
Qed.

Lemma lead_ascii (b : N) : b <= 0x7F -> TextDecoder.lead b = (TextDecoder.utf8_init, [b]).
Proof. intros H. unfold TextDecoder.lead. apply N.leb_le in H. now rewrite H. Qed.

Lemma lead_two (b : N) :
  0xC2 <= b <= 0xDF ->
  TextDecoder.lead b = (TextDecoder.mkUtf8 (b mod 32) 0 1 0x80 0xBF, []).
Proof.
  intros H. unfold TextDecoder.lead.
  change 0x1F with (N.ones 5). rewrite N.land_ones.
  destruct (N.leb_spec b 0x7F); [lia|].
  destruct (N.leb_spec 0xC2 b); [|lia].
  destruct (N.leb_spec b 0xDF); [|lia]. reflexivity.
Qed.

Lemma lead_three (b : N) :
  0xE0 <= b <= 0xEF ->
  TextDecoder.lead b
  = (TextDecoder.mkUtf8 (b mod 16) 0 2
       (if b =? 0xE0 then 0xA0 else 0x80) (if b =? 0xED then 0x9F else 0xBF), []).
Proof.
  intros H. unfold TextDecoder.lead.
  change 0xF with (N.ones 4). rewrite N.land_ones.
  destruct (N.leb_spec b 0x7F); [lia|].
  destruct (N.leb_spec 0xC2 b); [|lia].
  destruct (N.leb_spec b 0xDF); [lia|].
  destruct (N.leb_spec 0xE0 b); [|lia].
  destruct (N.leb_spec b 0xEF); [|lia]. reflexivity.
Qed.

Lemma lead_four (b : N) :
  0xF0 <= b <= 0xF4 ->
  TextDecoder.lead b
  = (TextDecoder.mkUtf8 (b mod 8) 0 3
       (if b =? 0xF0 then 0x90 else 0x80) (if b =? 0xF4 then 0x8F else 0xBF), []).
Proof.
  intros H. unfold TextDecoder.lead.
  change 0x7 with (N.ones 3). rewrite N.land_ones.
  destruct (N.leb_spec b 0x7F); [lia|].
  destruct (N.leb_spec 0xC2 b); [|lia].
  destruct (N.leb_spec b 0xDF); [lia|].
  destruct (N.leb_spec 0xE0 b); [|lia].
  destruct (N.leb_spec b 0xEF); [lia|].
  destruct (N.leb_spec 0xF0 b); [|lia].
  destruct (N.leb_spec b 0xF4); [|lia]. reflexivity.
Qed.

Lemma handle_continuation (cp seen needed lower upper b : N) :
  needed <> 0 -> lower <= b <= upper ->
  TextDecoder.handle (TextDecoder.mkUtf8 cp seen needed lower upper) b
  = if seen + 1 =? needed
    then (TextDecoder.utf8_init, [cp * 64 + b mod 64])
    else (TextDecoder.mkUtf8 (cp * 64 + b mod 64) (seen + 1) needed 0x80 0xBF, []).
Proof.
  intros Hn Hb. unfold TextDecoder.handle. cbn [TextDecoder.bytes_needed
    TextDecoder.lower_boundary TextDecoder.upper_boundary TextDecoder.code_point
    TextDecoder.bytes_seen].
  destruct (N.eqb_spec needed 0); [contradiction|].
  destruct (N.leb_spec lower b); [|lia].
  destruct (N.leb_spec b upper); [|lia].
  cbn [andb negb]. now rewrite lor_shiftl.
Qed.

Ltac continuation side :=
  rewrite handle_continuation; [| discriminate | side];
  match goal with
  | |- context [(?a + 1 =? ?n)%N] =>
      let v := eval vm_compute in (a + 1 =? n)%N in
      change (a + 1 =? n)%N with v
  end;
  cbn iota.

Lemma run_encode (c : N) :
  Utf8.scalar_value c ->
  TextDecoder.run TextDecoder.utf8_init (Utf8.encode c) = (TextDecoder.utf8_init, [c]).
Proof.
  intros Hs. unfold Utf8.encode, Utf8.scalar_value in *.
  destruct (N.leb_spec c 0x7F) as [H1|H1];
    [|destruct (N.leb_spec c 0x7FF) as [H2|H2];
      [|destruct (N.leb_spec c 0xFFFF) as [H3|H3]]];
    cbn [TextDecoder.run]; unfold TextDecoder.handle at 1;
    cbn [TextDecoder.bytes_needed TextDecoder.utf8_init N.eqb].
  - now rewrite lead_ascii.
  - rewrite lead_two by lia_div.
    continuation lia_div.
    cbn [app]. do 3 f_equal. lia_div.
  - rewrite lead_three by lia_div.
    continuation ltac:(destruct (N.eqb_spec (224 + c / 4096) 224);
                       destruct (N.eqb_spec (224 + c / 4096) 237); lia_div).
    continuation lia_div.
    cbn [app]. do 3 f_equal. lia_div.
  - rewrite lead_four by lia_div.
    continuation ltac:(destruct (N.eqb_spec (240 + c / 262144) 240);
                       destruct (N.eqb_spec (240 + c / 262144) 244); lia_div).
    continuation lia_div.
    continuation lia_div.
    cbn [app]. do 3 f_equal. lia_div.
Qed.

End Utf8RoundTrip.

(** X17. With [{ stream: true }], the bytes of a character cut anywhere
    into two chunks decode to exactly that character, and nothing is left
    pending: no replacement character is produced. *)
Lemma stream_decodes_split_character (td : TextDecoder.t) (c : N) (a b : list byte) :
  Utf8.scalar_value c ->
  (TextDecoder.do_not_flush td = true ->
   TextDecoder.decoder td = TextDecoder.utf8_init) ->
  c <> 0xFEFF%N ->
  map Byte.to_N (a ++ b) = Utf8.encode c ->
  let r1 := TextDecoder.decode td a true in
  let r2 := TextDecoder.decode (snd r1) b true in
  fst r1 ++ fst r2 = TextDecoder.utf16 c
  /\ TextDecoder.decoder (snd r2) = TextDecoder.utf8_init.
Proof.
  intros Hs Hidle Hbom Hbytes r1 r2.
  pose proof (decode_stream_split td a b) as Hsplit. cbn zeta in Hsplit.
  fold r1 r2 in Hsplit.
  assert (Hwhole : TextDecoder.decode td (a ++ b) true
                   = (TextDecoder.utf16 c,
                      TextDecoder.mk TextDecoder.utf8_init true true)).
  { unfold TextDecoder.decode. rewrite Hbytes.
    replace (TextDecoder.decoder
               (if TextDecoder.do_not_flush td then td else TextDecoder.new))
      with TextDecoder.utf8_init
      by (destruct (TextDecoder.do_not_flush td); [now rewrite Hidle|reflexivity]).
    rewrite (run_encode c Hs). cbn [app TextDecoder.serialize].
    apply N.eqb_neq in Hbom. rewrite Hbom.
    destruct (TextDecoder.BOM_seen _); cbn [flat_map]; now rewrite app_nil_r. }
  rewrite Hwhole in Hsplit. injection Hsplit as H1 H2.
  split; [now symmetry|]. now rewrite <- H2.
Qed.

(** ** The raw-text hook *)

Lemma nth_set_aborted (a : nat) (cs : list bool) :
  a < List.length cs -> nth a (UseStreamingChat.set_aborted a cs) false = true.
Proof.
  revert cs. induction a as [|a IH]; intros [|c cs] H; cbn in *;
    try reflexivity; try lia.
  apply IH. lia.
Qed.

Lemma length_set_aborted (a : nat) (cs : list bool) :
  List.length (UseStreamingChat.set_aborted a cs) = List.length cs.
Proof.
  revert cs. induction a as [|a IH]; intros [|c cs]; cbn; auto.
Qed.

Lemma enter_in_flight (env : UseStreamingChat.Env) (s0 : UseStreamingChat.State) :
  UseStreamingChat.in_flight (UseStreamingChat.enter env s0).
Proof.
  unfold UseStreamingChat.enter.
  destruct (negb _); cbn; [exact I|].
  unfold UseStreamingChat.in_flight. cbn.
  rewrite length_app. cbn. repeat split. lia.
Qed.

Lemma resume_in_flight (env : UseStreamingChat.Env) (c : UseStreamingChat.Config)
  (e : UseStreamingChat.Event) :
  UseStreamingChat.in_flight c ->
  UseStreamingChat.in_flight (UseStreamingChat.resume env c e).
Proof.
  destruct c as [s f p]. unfold UseStreamingChat.in_flight.
  destruct e as [s'|]; cbn.
  - unfold UseStreamingChat.settle. cbn.
    destruct p as [signal|signal decoder first|]; destruct s'; cbn; auto.
    + destruct (negb ok || negb hasBody); cbn; auto.
    + destruct (TextDecoder.decode decoder value true) as [chunk decoder'].
      destruct first; cbn; auto.
  - destruct p as [signal|signal decoder first|]; cbn; auto;
      intros (Href & Hlt & Herr & Hload);
      unfold UseStreamingChat.stop; rewrite Href; cbn;
      unfold UseStreamingChat.aborted; cbn;
      rewrite (nth_set_aborted _ _ Hlt); cbn; exact I.
Qed.

Lemma handleSubmit_in_flight (env : UseStreamingChat.Env)
  (s0 : UseStreamingChat.State) (events : list UseStreamingChat.Event) :
  UseStreamingChat.in_flight (UseStreamingChat.handleSubmit env s0 events).
Proof.
  unfold UseStreamingChat.handleSubmit.
  generalize (enter_in_flight env s0).
  generalize (UseStreamingChat.enter env s0).
  induction events as [|e events IH]; intros c Hc; cbn; [exact Hc|].
  apply IH. now apply resume_in_flight.
Qed.

(** Once the handler has returned and the ref is cleared, nothing that
    happens changes the hook. *)
Lemma returned_is_final (env : UseStreamingChat.Env) (c : UseStreamingChat.Config)
  (events : list UseStreamingChat.Event) :
  UseStreamingChat.phase c = UseStreamingChat.Returned ->
  UseStreamingChat.abortControllerRef (UseStreamingChat.st c) = None ->
  fold_left (UseStreamingChat.resume env) events c = c.
Proof.
  intros Hp Hr. induction events as [|e events IH]; [reflexivity|].
  cbn [fold_left].
  replace (UseStreamingChat.resume env c e) with c; [exact IH|].
  destruct c as [s f p]. cbn in Hp, Hr. subst p.
  destruct e as [s'|]; cbn.
  - now destruct s'.
  - unfold UseStreamingChat.stop. now rewrite Hr.
Qed.

Lemma chat_returned_is_final (JSON_parse : jsstring -> option JsVal)
  (c : ChatInterface.Config) (transport : list Settled) :
  ChatInterface.phase c = ChatInterface.Returned ->
  fold_left (ChatInterface.resume JSON_parse) transport c = c.
Proof.
  intros Hp. induction transport as [|s transport IH]; [reflexivity|].
  cbn [fold_left].
  replace (ChatInterface.resume JSON_parse c s) with c; [exact IH|].
  unfold ChatInterface.resume. now rewrite Hp.
Qed.

(** ** Claims on both clients *)

(** C10. Submitting with empty or whitespace-only input (or, in the NDJSON
    component, while a response is streaming) is a no-op: the handler
    returns at once, no request is issued, and messages, input, the
    loading or typing flag and the error state are what they were,
    whatever the transport would have delivered. *)
Theorem C10_blank_submit_is_a_no_op
  (JSON_parse : jsstring -> option JsVal)
  (hook_env : UseStreamingChat.Env) (hook : UseStreamingChat.State)
  (chat_env : ChatInterface.Env) (chat : ChatInterface.State)
  (transport : list Settled) :
  JsString.trim (UseStreamingChat.input hook) = [] ->
  JsString.trim (ChatInterface.inputMessage chat) = []
  \/ ChatInterface.isTyping chat = true ->
  UseStreamingChat.handleSubmit hook_env hook
    (map UseStreamingChat.Settle transport)
  = UseStreamingChat.mkConfig hook [] UseStreamingChat.Returned
  /\ ChatInterface.handleSendMessage JSON_parse chat_env chat transport
     = ChatInterface.mkConfig chat [] [] ChatInterface.Returned.
Proof.
  intros Hhook Hchat. split.
  - unfold UseStreamingChat.handleSubmit, UseStreamingChat.enter.
    rewrite Hhook. cbn [JsString.truthy negb].
    induction transport as [|s transport IH]; [reflexivity|].
    cbn [map fold_left]. now destruct s.
  - unfold ChatInterface.handleSendMessage, ChatInterface.enter.
    replace (negb (JsString.truthy (JsString.trim (ChatInterface.inputMessage chat)))
             || ChatInterface.isTyping chat) with true.
    + now apply chat_returned_is_final.
    + destruct Hchat as [-> | ->]; [reflexivity|]. now rewrite orb_true_r.
Qed.

Lemma C10_witness :
  let hook := UseStreamingChat.mkState [] (u "   ") false None None [] in
  let chat :=
    ChatInterface.mkState (ChatInterface.messages Fixtures.chat0)
      (u "next question") true (u "session-A") in
  let transport := [Response true (u "OK") true; Chunk (bytes "Hi"); Done] in
  UseStreamingChat.handleSubmit Fixtures.hook_env hook
    (map UseStreamingChat.Settle transport)
  = UseStreamingChat.mkConfig hook [] UseStreamingChat.Returned
  /\ ChatInterface.handleSendMessage JSON.parse Fixtures.chat_env chat transport
     = ChatInterface.mkConfig chat [] [] ChatInterface.Returned.
Proof.
  intros hook chat transport.
  apply (C10_blank_submit_is_a_no_op JSON.parse Fixtures.hook_env hook
           Fixtures.chat_env chat transport).
  - reflexivity.
  - right. reflexivity.
Defined.

(** C9. When [stop] is called while the request is in flight, the abort
    ends the handler without an error being reported: the error state is
    still null, loading is cleared and the messages are kept; a rejection
    whose name is not [AbortError] is reported through the error state. *)
Theorem C9_abort_is_not_reported
  (env : UseStreamingChat.Env) (s0 : UseStreamingChat.State)
  (events : list UseStreamingChat.Event) (e : JsError) :
  let c := UseStreamingChat.handleSubmit env s0 events in
  UseStreamingChat.phase c <> UseStreamingChat.Returned ->
  name e <> u "AbortError" ->
  let stopped := UseStreamingChat.resume env c UseStreamingChat.CallStop in
  let failed :=
    UseStreamingChat.resume env c
      (UseStreamingChat.Settle
         (UseStreamingChat.rejection (UseStreamingChat.phase c) e)) in
  (UseStreamingChat.phase stopped = UseStreamingChat.Returned
   /\ UseStreamingChat.error (UseStreamingChat.st stopped) = None
   /\ UseStreamingChat.isLoading (UseStreamingChat.st stopped) = false
   /\ UseStreamingChat.messages (UseStreamingChat.st stopped)
      = UseStreamingChat.messages (UseStreamingChat.st c))
  /\ (UseStreamingChat.phase failed = UseStreamingChat.Returned
      /\ UseStreamingChat.error (UseStreamingChat.st failed) = Some e
      /\ UseStreamingChat.isLoading (UseStreamingChat.st failed) = false).
Proof.
  intros c Hphase Hname stopped failed.
  pose proof (handleSubmit_in_flight env s0 events) as Hin. fold c in Hin.
  subst stopped failed. apply eqb_neq in Hname.
  destruct c as [s f p]. unfold UseStreamingChat.in_flight in Hin.
  cbn in Hphase, Hin |- *.
  destruct p as [signal|signal decoder first|]; [| |congruence];
    destruct Hin as (Href & Hlt & Herr & Hload); split.
  all: try (unfold UseStreamingChat.stop, UseStreamingChat.aborted;
            rewrite Href; cbn; rewrite (nth_set_aborted _ _ Hlt); cbn; now auto).
  all: unfold UseStreamingChat.settle, UseStreamingChat.on_catch;
    cbn [UseStreamingChat.phase UseStreamingChat.rejection];
    rewrite Hname; cbn; auto.
Qed.

Lemma C9_witness :
  let c :=
    UseStreamingChat.handleSubmit Fixtures.hook_env Fixtures.hook0
      [UseStreamingChat.Settle (Response true (u "OK") true);
       UseStreamingChat.Settle (Chunk (bytes "Hi "))] in
  let e := mkError (u "TypeError") (u "network error") in
  let stopped :=
    UseStreamingChat.resume Fixtures.hook_env c UseStreamingChat.CallStop in
  let failed :=
    UseStreamingChat.resume Fixtures.hook_env c
      (UseStreamingChat.Settle
         (UseStreamingChat.rejection (UseStreamingChat.phase c) e)) in
  (UseStreamingChat.phase stopped = UseStreamingChat.Returned
   /\ UseStreamingChat.error (UseStreamingChat.st stopped) = None
   /\ UseStreamingChat.isLoading (UseStreamingChat.st stopped) = false
   /\ UseStreamingChat.messages (UseStreamingChat.st stopped)
      = UseStreamingChat.messages (UseStreamingChat.st c))
  /\ (UseStreamingChat.phase failed = UseStreamingChat.Returned
      /\ UseStreamingChat.error (UseStreamingChat.st failed) = Some e
      /\ UseStreamingChat.isLoading (UseStreamingChat.st failed) = false).
Proof.
  intros c e.
  apply (C9_abort_is_not_reported Fixtures.hook_env Fixtures.hook0
           [UseStreamingChat.Settle (Response true (u "OK") true);
            UseStreamingChat.Settle (Chunk (bytes "Hi "))] e).
  - vm_compute. discriminate.
  - vm_compute. discriminate.
Defined.

(** C5. When the response has a non-success status or no body, no read is
    made and nothing the body would deliver is processed.  In the NDJSON
    component the assistant message already created is finalised as failed:
    its content is the fallback text and it no longer streams.  In the hook
    no assistant message has been created; the error is recorded and
    loading is cleared. *)
Theorem C5_failed_response_finalizes_as_failed
  (JSON_parse : jsstring -> option JsVal)
  (chat_env : ChatInterface.Env) (chat : ChatInterface.State)
  (hook_env : UseStreamingChat.Env) (hook : UseStreamingChat.State)
  (ok hasBody : bool) (statusText : jsstring)
  (transport : list Settled) (events : list UseStreamingChat.Event) :
  ok = false \/ hasBody = false ->
  JsString.trim (ChatInterface.inputMessage chat) <> [] ->
  ChatInterface.isTyping chat = false ->
  JsString.trim (UseStreamingChat.input hook) <> [] ->
  let final :=
    ChatInterface.handleSendMessage JSON_parse chat_env chat
      (Response ok statusText hasBody :: transport) in
  let hfinal :=
    UseStreamingChat.handleSubmit hook_env hook
      (UseStreamingChat.Settle (Response ok statusText hasBody) :: events) in
  (nth_error (ChatInterface.messages (ChatInterface.ui final))
             (ReadLoop.bot_position chat)
   = Some (ReadLoop.bot_message chat_env ChatInterface.FALLBACK false)
   /\ Spec.finalized_failed (ReadLoop.bot_message chat_env ChatInterface.FALLBACK false)
   /\ ChatInterface.isTyping (ChatInterface.ui final) = false
   /\ ChatInterface.console final
      = [ConsoleError (u "Error fetching streamed response:")]
   /\ ChatInterface.phase final = ChatInterface.Returned)
  /\ (UseStreamingChat.messages (UseStreamingChat.st hfinal)
      = UseStreamingChat.messages hook
        ++ [UseStreamingChat.mkUIMessage (UseStreamingChat.userMessageId hook_env)
              user (JArr [UseStreamingChat.text_part (UseStreamingChat.input hook)])]
      /\ UseStreamingChat.error (UseStreamingChat.st hfinal)
         = Some (mkError (u "Error")
                         (Js.or_string statusText (u "Failed to fetch stream")))
      /\ UseStreamingChat.isLoading (UseStreamingChat.st hfinal) = false
      /\ UseStreamingChat.phase hfinal = UseStreamingChat.Returned).
Proof.
  intros Hbad Hin Hty Hhook final hfinal.
  assert (Hb : negb ok || negb hasBody = true)
    by (destruct Hbad as [-> | ->]; [reflexivity | now rewrite orb_true_r]).
  split.
  - subst final. unfold ChatInterface.handleSendMessage. cbn [fold_left].
    destruct (enter_sends chat_env chat Hin Hty) as (Hph & Hcon & Hmsgs).
    rewrite chat_returned_is_final;
      unfold ChatInterface.resume; rewrite Hph, Hb; [|reflexivity].
    unfold ChatInterface.on_finally, ChatInterface.on_catch,
      ChatInterface.setMessages, ChatInterface.setIsTyping.
    cbn [ChatInterface.ui ChatInterface.console ChatInterface.phase
         ChatInterface.messages ChatInterface.isTyping ChatInterface.fetched].
    rewrite Hcon, Hmsgs. repeat split.
    pose proof (nth_error_bot (ChatInterface.messages chat)
                  (ChatInterface.mkChatMessage (ChatInterface.userMessageId chat_env)
                     (JsString.trim (ChatInterface.inputMessage chat)) user
                     (ChatInterface.userTimestamp chat_env) None)
                  (ReadLoop.bot_message chat_env [] true)) as Hnth.
    pose proof (nth_error_set_content (ChatInterface.botMessageId chat_env)
                  ChatInterface.FALLBACK _ _ _ Hnth eq_refl) as Hset.
    exact (nth_error_set_not_streaming (ChatInterface.botMessageId chat_env)
             _ _ _ Hset eq_refl).
  - subst hfinal. unfold UseStreamingChat.handleSubmit. cbn [fold_left].
    unfold UseStreamingChat.enter.
    apply truthy_true in Hhook. rewrite Hhook. cbn [negb].
    rewrite returned_is_final;
      cbn; unfold UseStreamingChat.settle; cbn; rewrite Hb; cbn; auto.
Qed.

Lemma C5_witness :
  let final :=
    ChatInterface.handleSendMessage JSON.parse Fixtures.chat_env Fixtures.chat0
      (Response false (u "Internal Server Error") true
       :: map Chunk Fixtures.hello_reads ++ [Done]) in
  let hfinal :=
    UseStreamingChat.handleSubmit Fixtures.hook_env Fixtures.hook0
      (UseStreamingChat.Settle (Response false (u "Internal Server Error") true)
       :: [UseStreamingChat.Settle (Chunk (bytes "Hi ")); UseStreamingChat.CallStop]) in
  (nth_error (ChatInterface.messages (ChatInterface.ui final)) 2
   = Some (ReadLoop.bot_message Fixtures.chat_env ChatInterface.FALLBACK false)
   /\ Spec.finalized_failed
        (ReadLoop.bot_message Fixtures.chat_env ChatInterface.FALLBACK false)
   /\ ChatInterface.isTyping (ChatInterface.ui final) = false
   /\ ChatInterface.console final
      = [ConsoleError (u "Error fetching streamed response:")]
   /\ ChatInterface.phase final = ChatInterface.Returned)
  /\ (UseStreamingChat.messages (UseStreamingChat.st hfinal)
      = [] ++ [UseStreamingChat.mkUIMessage (u "id-user") user
                 (JArr [UseStreamingChat.text_part (u "hey")])]
      /\ UseStreamingChat.error (UseStreamingChat.st hfinal)
         = Some (mkError (u "Error")
                   (Js.or_string (u "Internal Server Error")
                      (u "Failed to fetch stream")))
      /\ UseStreamingChat.isLoading (UseStreamingChat.st hfinal) = false
      /\ UseStreamingChat.phase hfinal = UseStreamingChat.Returned).
Proof.
  apply (C5_failed_response_finalizes_as_failed JSON.parse Fixtures.chat_env
           Fixtures.chat0 Fixtures.hook_env Fixtures.hook0 false true
           (u "Internal Server Error")
           (map Chunk Fixtures.hello_reads ++ [Done])
           [UseStreamingChat.Settle (Chunk (bytes "Hi ")); UseStreamingChat.CallStop]).
  - left. reflexivity.
  - vm_compute. discriminate.
  - reflexivity.
  - vm_compute. discriminate.
Defined.

(** An array has no own property called [text]. *)
Lemma array_has_no_text (elems : list JsVal) :
  Js.Get (JArr elems) (u "text") = Some JUndefined.
Proof.
  unfold Js.Get. cbn [Js.own_props].
  replace (Js.lookup (u "text") (combine (Js.index_keys (List.length elems)) elems))
    with (@None JsVal); [reflexivity|].
  unfold Js.index_keys. generalize 0.
  induction elems as [|x elems IH]; intros n; [reflexivity|].
  cbn [List.length seq map combine Js.lookup].
  replace (JsString.eqb (u "text") (JsString.of_nat n)) with false; [apply IH|].
  symmetry. apply eqb_neq. unfold JsString.of_nat.
  destruct (Nat.to_uint n); cbn; discriminate.
Qed.

(** The updater of a later chunk never fails on a list whose last
    message holds an array of parts, and what it stores as text is the
    rendering of [undefined] followed by the chunk. *)
Lemma append_to_last_array (chunk : jsstring) (prev : list UseStreamingChat.UIMessage)
  (m : UseStreamingChat.UIMessage) (elems : list JsVal) :
  UseStreamingChat.parts m = JArr elems ->
  UseStreamingChat.append_to_last chunk (prev ++ [m])
  = Some (prev ++ [UseStreamingChat.mkUIMessage (UseStreamingChat.id m)
                     (UseStreamingChat.role m)
                     (JArr [JObj (Js.set (u "text") (JStr (u "undefined" ++ chunk))
                                         (Js.own_props (JArr elems)))])]).
Proof.
  intros Hparts. unfold UseStreamingChat.append_to_last, UseStreamingChat.last_message.
  rewrite length_app, Nat.add_sub. cbn [List.length].
  rewrite nth_error_app2, Nat.sub_diag by lia. cbn [nth_error].
  rewrite removelast_last, Hparts, array_has_no_text. reflexivity.
Qed.

Lemma enter_submits (env : UseStreamingChat.Env) (s0 : UseStreamingChat.State) :
  JsString.trim (UseStreamingChat.input s0) <> [] ->
  UseStreamingChat.phase (UseStreamingChat.enter env s0)
  = UseStreamingChat.AwaitFetch (List.length (UseStreamingChat.controllers s0))
  /\ UseStreamingChat.messages (UseStreamingChat.st (UseStreamingChat.enter env s0))
     = UseStreamingChat.messages s0
       ++ [UseStreamingChat.mkUIMessage (UseStreamingChat.userMessageId env) user
             (JArr [UseStreamingChat.text_part (UseStreamingChat.input s0)])].
Proof.
  intros Hin. unfold UseStreamingChat.enter.
  apply truthy_true in Hin. rewrite Hin. cbn. auto.
Qed.

Lemma settle_response (env : UseStreamingChat.Env) (c : UseStreamingChat.Config)
  (signal : nat) (statusText : jsstring) :
  UseStreamingChat.phase c = UseStreamingChat.AwaitFetch signal ->
  UseStreamingChat.settle env c (Response true statusText true)
  = UseStreamingChat.mkConfig (UseStreamingChat.st c) (UseStreamingChat.fetched c)
      (UseStreamingChat.Reading signal TextDecoder.new true).
Proof. intros H. unfold UseStreamingChat.settle. now rewrite H. Qed.

Lemma settle_first_chunk (env : UseStreamingChat.Env) (c : UseStreamingChat.Config)
  (signal : nat) (decoder : TextDecoder.t) (value : list byte) :
  UseStreamingChat.phase c = UseStreamingChat.Reading signal decoder true ->
  let r := TextDecoder.decode decoder value true in
  UseStreamingChat.settle env c (Chunk value)
  = UseStreamingChat.mkConfig
      (UseStreamingChat.setMessages (UseStreamingChat.push_assistant env (fst r))
         (UseStreamingChat.st c))
      (UseStreamingChat.fetched c)
      (UseStreamingChat.Reading signal (snd r) false).
Proof.
  intros H r. subst r. unfold UseStreamingChat.settle. rewrite H.
  now destruct (TextDecoder.decode decoder value true).
Qed.

Lemma settle_later_chunk (env : UseStreamingChat.Env) (c : UseStreamingChat.Config)
  (signal : nat) (decoder : TextDecoder.t) (value : list byte) :
  UseStreamingChat.phase c = UseStreamingChat.Reading signal decoder false ->
  let r := TextDecoder.decode decoder value true in
  UseStreamingChat.settle env c (Chunk value)
  = UseStreamingChat.mkConfig
      (UseStreamingChat.setMessages
         (fun prev => match UseStreamingChat.append_to_last (fst r) prev with
                      | Some next => next
                      | None => prev
                      end)
         (UseStreamingChat.st c))
      (UseStreamingChat.fetched c)
      (UseStreamingChat.Reading signal (snd r) false).
Proof.
  intros H r. subst r. unfold UseStreamingChat.settle. rewrite H.
  now destruct (TextDecoder.decode decoder value true).
Qed.

Lemma settle_done (env : UseStreamingChat.Env) (c : UseStreamingChat.Config)
  (signal : nat) (decoder : TextDecoder.t) (first : bool) :
  UseStreamingChat.phase c = UseStreamingChat.Reading signal decoder first ->
  UseStreamingChat.settle env c Done = UseStreamingChat.on_finally c.
Proof. intros H. unfold UseStreamingChat.settle. now rewrite H. Qed.

(** Raw-text mode on any two chunks: the first creates the assistant
    message with the chunk as the text of its part; the second replaces the
    part by an object that keeps the old part under the key [0] and whose
    text is the rendering of [undefined] followed by the second chunk. *)
Lemma raw_two_chunks (env : UseStreamingChat.Env) (s0 : UseStreamingChat.State)
  (statusText : jsstring) (value1 value2 : list byte) :
  JsString.trim (UseStreamingChat.input s0) <> [] ->
  let r1 := TextDecoder.decode TextDecoder.new value1 true in
  let r2 := TextDecoder.decode (snd r1) value2 true in
  let user_message :=
    UseStreamingChat.mkUIMessage (UseStreamingChat.userMessageId env) user
      (JArr [UseStreamingChat.text_part (UseStreamingChat.input s0)]) in
  let after n :=
    UseStreamingChat.messages
      (UseStreamingChat.st
         (UseStreamingChat.handleSubmit env s0
            (firstn n [UseStreamingChat.Settle (Response true statusText true);
                       UseStreamingChat.Settle (Chunk value1);
                       UseStreamingChat.Settle (Chunk value2);
                       UseStreamingChat.Settle Done]))) in
  after 2
  = (UseStreamingChat.messages s0 ++ [user_message])
    ++ [UseStreamingChat.mkUIMessage (UseStreamingChat.assistantMessageId env)
          assistant (JArr [UseStreamingChat.text_part (fst r1)])]
  /\ after 4
     = (UseStreamingChat.messages s0 ++ [user_message])
       ++ [UseStreamingChat.mkUIMessage (UseStreamingChat.assistantMessageId env)
             assistant
             (JArr [JObj [(u "0", UseStreamingChat.text_part (fst r1));
                          (u "text", JStr (u "undefined" ++ fst r2))]])].
Proof.
  intros Hin r1 r2 user_message after. subst after.
  destruct (enter_submits env s0 Hin) as [Hphase Hmsgs].
  unfold UseStreamingChat.handleSubmit.
  cbn [firstn fold_left UseStreamingChat.resume].
  rewrite (settle_response env _ _ statusText Hphase).
  erewrite settle_first_chunk by reflexivity.
  fold r1.
  cbn [UseStreamingChat.st UseStreamingChat.fetched UseStreamingChat.setMessages
       UseStreamingChat.messages].
  rewrite Hmsgs. fold user_message. split; [reflexivity|].
  erewrite settle_later_chunk by reflexivity.
  fold r2.
  erewrite settle_done by reflexivity.
  cbn [UseStreamingChat.st UseStreamingChat.fetched UseStreamingChat.setMessages
       UseStreamingChat.messages UseStreamingChat.on_finally
       UseStreamingChat.set_ref UseStreamingChat.setIsLoading].
  unfold UseStreamingChat.push_assistant.
  rewrite (append_to_last_array (fst r2) _
             (UseStreamingChat.mkUIMessage _ _
                (JArr [UseStreamingChat.text_part (fst r1)])) _ eq_refl).
  rewrite Hmsgs. reflexivity.
Qed.

(** C1 on the code.  In raw-text mode the chunks "Hi " and "there" leave
    an assistant message whose only part has the text "undefinedthere",
    not "Hi there": the first chunk created the message with text "Hi ",
    and the second was joined to the [text] property of the [parts] array,
    which is [undefined], instead of to the text of the part. *)
Theorem C1_raw_second_chunk_is_joined_to_undefined :
  let after n :=
    UseStreamingChat.messages
      (UseStreamingChat.st
         (UseStreamingChat.handleSubmit Fixtures.hook_env Fixtures.hook0
            (firstn n Fixtures.hi_there))) in
  let user_message :=
    UseStreamingChat.mkUIMessage (u "id-user") user
      (JArr [UseStreamingChat.text_part (u "hey")]) in
  let final_message :=
    UseStreamingChat.mkUIMessage (u "id-assistant") assistant
      (JArr [JObj [(u "0", UseStreamingChat.text_part (u "Hi "));
                   (u "text", JStr (u "undefinedthere"))]]) in
  after 2
  = [user_message;
     UseStreamingChat.mkUIMessage (u "id-assistant") assistant
       (JArr [UseStreamingChat.text_part (u "Hi ")])]
  /\ after 4 = [user_message; final_message]
  /\ UseStreamingChat.part_texts final_message = [Some (JStr (u "undefinedthere"))]
  /\ u "undefinedthere" <> u "Hi there".
Proof.
  repeat split; try reflexivity.
  vm_compute. discriminate.
Qed.

(** C7 on the code.  The hook decodes with [{ stream: true }]: the first
    byte of U+00E9 alone yields no text and the second completes the
    character.  The NDJSON component calls [decode] without that option:
    cut between the two bytes, each read yields U+FFFD, and the record,
    which in one read gives the content U+00E9, is lost. *)
Theorem C7_ndjson_split_character_is_replaced :
  let td1 := snd (TextDecoder.decode TextDecoder.new [Fixtures.e_acute_1] true) in
  let session reads :=
    ChatInterface.handleSendMessage JSON.parse Fixtures.chat_env Fixtures.chat0
      (Response true (u "OK") true :: map Chunk reads ++ [Done]) in
  let content reads :=
    option_map ChatInterface.content
      (nth_error (ChatInterface.messages (ChatInterface.ui (session reads))) 2) in
  (fst (TextDecoder.decode TextDecoder.new [Fixtures.e_acute_1] true) = []
   /\ fst (TextDecoder.decode td1 [Fixtures.e_acute_2] true) = [0xE9%N])
  /\ map ReadLoop.decoded Fixtures.split_char_reads
     = [q "{'type':'chunk','data':'" ++ [TextDecoder.REPLACEMENT];
        [TextDecoder.REPLACEMENT] ++ q "'}" ++ [JsString.LF]]
  /\ content Fixtures.split_char_reads = Some []
  /\ content [List.concat Fixtures.split_char_reads] = Some [0xE9%N].
Proof. repeat split; reflexivity. Qed.

(* ================================================================== *)
(** * Further properties of the two clients *)
(* ================================================================== *)

(** ** What an NDJSON session does to the message list *)

Lemma touched_refl (bot : jsstring) (m : ChatInterface.ChatMessage) :
  ChatInterface.touched bot m m.
Proof. unfold ChatInterface.touched. auto. Qed.

Lemma touched_trans (bot : jsstring) (a b c : ChatInterface.ChatMessage) :
  ChatInterface.touched bot a b -> ChatInterface.touched bot b c ->
  ChatInterface.touched bot a c.
Proof.
  intros (I1 & R1 & T1 & E1) (I2 & R2 & T2 & E2).
  unfold ChatInterface.touched. repeat split; try congruence.
  intros H. rewrite <- (E1 H). apply E2. congruence.
Qed.

Lemma Forall2_same {A : Type} (R : A -> A -> Prop) (l : list A) :
  (forall x, R x x) -> Forall2 R l l.
Proof. intros H. induction l; constructor; auto. Qed.

Lemma Forall2_compose {A : Type} (R : A -> A -> Prop) (l1 l2 l3 : list A) :
  (forall x y z, R x y -> R y z -> R x z) ->
  Forall2 R l1 l2 -> Forall2 R l2 l3 -> Forall2 R l1 l3.
Proof.
  intros HR H12. revert l3.
  induction H12 as [|x y l1 l2 Hxy _ IH]; intros l3 H23;
    inversion H23; subst; constructor; eauto.
Qed.

Lemma Forall2_map_r {A : Type} (R : A -> A -> Prop) (f : A -> A) (l : list A) :
  (forall x, R x (f x)) -> Forall2 R l (map f l).
Proof. intros H. induction l; cbn; constructor; auto. Qed.

Lemma touched_set_content (bot c : jsstring) (l : list ChatInterface.ChatMessage) :
  Forall2 (ChatInterface.touched bot) l (ChatInterface.set_content bot c l).
Proof.
  apply Forall2_map_r. intros m. unfold ChatInterface.touched.
  destruct (JsString.eqb (ChatInterface.id m) bot) eqn:E; cbn; auto.
  apply eqb_eq in E. repeat split; auto. congruence.
Qed.

Lemma touched_set_not_streaming (bot : jsstring) (l : list ChatInterface.ChatMessage) :
  Forall2 (ChatInterface.touched bot) l (ChatInterface.set_not_streaming bot l).
Proof.
  apply Forall2_map_r. intros m. unfold ChatInterface.touched.
  destruct (JsString.eqb (ChatInterface.id m) bot) eqn:E; cbn; auto.
  apply eqb_eq in E. repeat split; auto. congruence.
Qed.

Lemma touched_compose (bot : jsstring) (l1 l2 l3 : list ChatInterface.ChatMessage) :
  Forall2 (ChatInterface.touched bot) l1 l2 ->
  Forall2 (ChatInterface.touched bot) l2 l3 ->
  Forall2 (ChatInterface.touched bot) l1 l3.
Proof. apply Forall2_compose. apply touched_trans. Qed.

(** Messages with another id come out of a session as they went in. *)
Lemma touched_fresh (bot : jsstring) (l l' : list ChatInterface.ChatMessage) :
  Forall2 (ChatInterface.touched bot) l l' ->
  Forall (fun m => ChatInterface.id m <> bot) l ->
  l' = l.
Proof.
  induction 1 as [|m m' l l' (_ & _ & _ & E) _ IH]; intros HF; [reflexivity|].
  inversion HF; subst. f_equal; auto.
Qed.

Section NdjsonFrame.

Variable JSON_parse : jsstring -> option JsVal.

(** The cells other than [messages] that a line leaves alone, and what it
    may do to [messages]. *)
Lemma process_line_touched (bot : jsstring) (c : ChatInterface.Config)
  (acc line : jsstring) :
  let r := ChatInterface.process_line JSON_parse bot (c, acc) line in
  Forall2 (ChatInterface.touched bot)
          (ChatInterface.messages (ChatInterface.ui c))
          (ChatInterface.messages (ChatInterface.ui (fst r)))
  /\ ChatInterface.inputMessage (ChatInterface.ui (fst r))
     = ChatInterface.inputMessage (ChatInterface.ui c)
  /\ ChatInterface.isTyping (ChatInterface.ui (fst r))
     = ChatInterface.isTyping (ChatInterface.ui c)
  /\ ChatInterface.sessionId (ChatInterface.ui (fst r))
     = ChatInterface.sessionId (ChatInterface.ui c)
  /\ ChatInterface.fetched (fst r) = ChatInterface.fetched c
  /\ ChatInterface.phase (fst r) = ChatInterface.phase c.
Proof.
  unfold ChatInterface.process_line.
  destruct (ChatInterface.try_line JSON_parse acc line); cbn;
    repeat split;
    try apply touched_set_content;
    apply Forall2_same, touched_refl.
Qed.

Lemma process_lines_touched (bot : jsstring) (lines : list jsstring)
  (c : ChatInterface.Config) (acc : jsstring) :
  let r := ChatInterface.process_lines JSON_parse bot (c, acc) lines in
  Forall2 (ChatInterface.touched bot)
          (ChatInterface.messages (ChatInterface.ui c))
          (ChatInterface.messages (ChatInterface.ui (fst r)))
  /\ ChatInterface.inputMessage (ChatInterface.ui (fst r))
     = ChatInterface.inputMessage (ChatInterface.ui c)
  /\ ChatInterface.isTyping (ChatInterface.ui (fst r))
     = ChatInterface.isTyping (ChatInterface.ui c)
  /\ ChatInterface.sessionId (ChatInterface.ui (fst r))
     = ChatInterface.sessionId (ChatInterface.ui c)
  /\ ChatInterface.fetched (fst r) = ChatInterface.fetched c
  /\ ChatInterface.phase (fst r) = ChatInterface.phase c.
Proof.
  revert c acc. induction lines as [|line lines IH]; intros c acc.
  - cbn. repeat split. apply Forall2_same, touched_refl.
  - cbn [ChatInterface.process_lines fold_left].
    pose proof (process_line_touched bot c acc line) as H1. cbn zeta in H1.
    destruct (ChatInterface.process_line JSON_parse bot (c, acc) line) as [c1 a1].
    cbn [fst] in H1. destruct H1 as (M1 & I1 & T1 & S1 & F1 & P1).
    specialize (IH c1 a1). cbn zeta in IH.
    unfold ChatInterface.process_lines in IH.
    destruct IH as (M2 & I2 & T2 & S2 & F2 & P2).
    repeat split; try congruence. eapply touched_compose; eassumption.
Qed.

End NdjsonFrame.

Lemma state_ext (a b : ChatInterface.State) :
  ChatInterface.messages a = ChatInterface.messages b ->
  ChatInterface.inputMessage a = ChatInterface.inputMessage b ->
  ChatInterface.isTyping a = ChatInterface.isTyping b ->
  ChatInterface.sessionId a = ChatInterface.sessionId b ->
  a = b.
Proof. destruct a, b. cbn. congruence. Qed.

Lemma stopped_set_not_streaming (bot : jsstring) (l : list ChatInterface.ChatMessage) :
  Forall (fun m => ChatInterface.id m = bot ->
                   ChatInterface.isStreaming m = Some false)
         (ChatInterface.set_not_streaming bot l).
Proof.
  unfold ChatInterface.set_not_streaming. apply Forall_map, Forall_forall.
  intros m _. destruct (JsString.eqb (ChatInterface.id m) bot) eqn:E; cbn; auto.
  apply eqb_neq in E. intros H. contradiction.
Qed.

Section NdjsonLifecycle.

Variable JSON_parse : jsstring -> option JsVal.

Lemma enter_chat_session (env : ChatInterface.Env) (st : ChatInterface.State) :
  JsString.trim (ChatInterface.inputMessage st) <> [] ->
  ChatInterface.isTyping st = false ->
  Lifecycle.chat_session env st (ChatInterface.enter env st).
Proof.
  intros Hin Hty. unfold Lifecycle.chat_session, ChatInterface.enter.
  apply truthy_true in Hin. rewrite Hin, Hty. cbn.
  rewrite <- app_assoc. cbn [app].
  repeat split; auto.
  - apply Forall2_same, touched_refl.
  - exists []. apply nth_error_bot.
Qed.

Lemma finally_chat_session (env : ChatInterface.Env) (st0 : ChatInterface.State)
  (c : ChatInterface.Config) (content : jsstring) :
  Forall2 (ChatInterface.touched (ChatInterface.botMessageId env))
    (ChatInterface.messages st0
     ++ [Lifecycle.user_message env st0; ReadLoop.bot_message env [] true])
    (ChatInterface.messages (ChatInterface.ui c)) ->
  ChatInterface.inputMessage (ChatInterface.ui c) = [] ->
  ChatInterface.sessionId (ChatInterface.ui c) = ChatInterface.sessionId st0 ->
  ChatInterface.fetched c = [Lifecycle.request_of st0] ->
  nth_error (ChatInterface.messages (ChatInterface.ui c)) (ReadLoop.bot_position st0)
  = Some (ReadLoop.bot_message env content true) ->
  Lifecycle.chat_session env st0
    (ChatInterface.on_finally (ChatInterface.botMessageId env) c).
Proof.
  intros HM HI HS HF HN. unfold Lifecycle.chat_session. cbn.
  repeat split; auto.
  - eapply touched_compose; [exact HM|apply touched_set_not_streaming].
  - exists content.
    exact (nth_error_set_not_streaming (ChatInterface.botMessageId env) _ _ _
             HN eq_refl).
  - apply stopped_set_not_streaming.
Qed.

Lemma catch_chat_session (env : ChatInterface.Env) (st0 : ChatInterface.State)
  (c : ChatInterface.Config) (content : jsstring) :
  Forall2 (ChatInterface.touched (ChatInterface.botMessageId env))
    (ChatInterface.messages st0
     ++ [Lifecycle.user_message env st0; ReadLoop.bot_message env [] true])
    (ChatInterface.messages (ChatInterface.ui c)) ->
  nth_error (ChatInterface.messages (ChatInterface.ui c)) (ReadLoop.bot_position st0)
  = Some (ReadLoop.bot_message env content true) ->
  let c' := ChatInterface.on_catch (ChatInterface.botMessageId env) c in
  Forall2 (ChatInterface.touched (ChatInterface.botMessageId env))
    (ChatInterface.messages st0
     ++ [Lifecycle.user_message env st0; ReadLoop.bot_message env [] true])
    (ChatInterface.messages (ChatInterface.ui c'))
  /\ nth_error (ChatInterface.messages (ChatInterface.ui c'))
               (ReadLoop.bot_position st0)
     = Some (ReadLoop.bot_message env ChatInterface.FALLBACK true)
  /\ ChatInterface.inputMessage (ChatInterface.ui c')
     = ChatInterface.inputMessage (ChatInterface.ui c)
  /\ ChatInterface.sessionId (ChatInterface.ui c')
     = ChatInterface.sessionId (ChatInterface.ui c)
  /\ ChatInterface.fetched c' = ChatInterface.fetched c.
Proof.
  intros HM HN c'. subst c'. cbn. repeat split.
  - eapply touched_compose; [exact HM|apply touched_set_content].
  - exact (nth_error_set_content (ChatInterface.botMessageId env)
             ChatInterface.FALLBACK _ _ _ HN eq_refl).
Qed.

Lemma resume_chat_session (env : ChatInterface.Env) (st0 : ChatInterface.State)
  (c : ChatInterface.Config) (s : Settled) :
  Lifecycle.chat_session env st0 c ->
  Lifecycle.chat_session env st0 (ChatInterface.resume JSON_parse c s).
Proof.
  intros H. pose proof H as (HM & HI & HS & HF & HP).
  unfold ChatInterface.resume.
  destruct (ChatInterface.phase c) as [bot|bot decoder acc|] eqn:Ephase;
    [| |destruct s; exact H].
  - destruct HP as ([= ->] & HT & content & HN).
    pose proof (catch_chat_session env st0 c content HM HN)
      as (CM & CN & CI & CS & CF).
    destruct s; try exact H.
    + destruct (negb ok || negb hasBody).
      * eapply finally_chat_session; eauto; congruence.
      * unfold Lifecycle.chat_session. cbn. repeat split; eauto.
    + eapply finally_chat_session; eauto; congruence.
  - destruct HP as ([= ->] & HT & content & HN).
    pose proof (catch_chat_session env st0 c content HM HN)
      as (CM & CN & CI & CS & CF).
    destruct s; try exact H.
    + destruct (TextDecoder.decode decoder value false) as [chunk decoder'].
      pose proof (process_lines_touched JSON_parse (ChatInterface.botMessageId env)
                    (ChatInterface.lines_of chunk) c acc)
        as (PM & PI & PT & PS & PF & PP).
      assert (PN : exists content',
                 nth_error
                   (ChatInterface.messages
                      (ChatInterface.ui
                         (fst (ChatInterface.process_lines JSON_parse
                                 (ChatInterface.botMessageId env) (c, acc)
                                 (ChatInterface.lines_of chunk)))))
                   (ReadLoop.bot_position st0)
                 = Some (ReadLoop.bot_message env content' true)).
      { clear -HN. revert c acc content HN.
        induction (ChatInterface.lines_of chunk) as [|line lines IH];
          intros c acc content HN; [cbn; eauto|].
        cbn [ChatInterface.process_lines fold_left].
        destruct (ChatInterface.process_line JSON_parse
                    (ChatInterface.botMessageId env) (c, acc) line)
          as [c1 a1] eqn:E.
        assert (H1 : exists content1,
                   nth_error (ChatInterface.messages (ChatInterface.ui c1))
                             (ReadLoop.bot_position st0)
                   = Some (ReadLoop.bot_message env content1 true)).
        { revert E. unfold ChatInterface.process_line.
          destruct (ChatInterface.try_line JSON_parse acc line) as [acc'| | |];
            intros [= <- <-]; cbn; eauto.
          exists acc'.
          exact (nth_error_set_content (ChatInterface.botMessageId env) acc'
                   _ _ _ HN eq_refl). }
        destruct H1 as [content1 H1]. exact (IH c1 a1 content1 H1). }
      destruct (ChatInterface.process_lines JSON_parse
                  (ChatInterface.botMessageId env) (c, acc)
                  (ChatInterface.lines_of chunk)) as [c' acc'].
      cbn [fst] in *. unfold Lifecycle.chat_session. cbn.
      repeat split;
        first [congruence | exact PN | exact (touched_compose _ _ _ _ HM PM)].
    + eapply finally_chat_session; eauto.
    + eapply finally_chat_session; eauto; congruence.
Qed.

Lemma handleSendMessage_chat_session (env : ChatInterface.Env)
  (st : ChatInterface.State) (transport : list Settled) :
  JsString.trim (ChatInterface.inputMessage st) <> [] ->
  ChatInterface.isTyping st = false ->
  Lifecycle.chat_session env st
    (ChatInterface.handleSendMessage JSON_parse env st transport).
Proof.
  intros Hin Hty. unfold ChatInterface.handleSendMessage.
  generalize (enter_chat_session env st Hin Hty).
  generalize (ChatInterface.enter env st).
  induction transport as [|s transport IH]; intros c Hc; cbn; [exact Hc|].
  apply IH. now apply resume_chat_session.
Qed.

End NdjsonLifecycle.

(** ** Properties of the NDJSON component *)

(** X1. When the ids drawn for a submit are fresh, a session changes no
    message but its own, whatever the transport does: at every moment the
    list is the one at entry, then the user message, then the handler's
    assistant message, which streams exactly while the handler is
    suspended. *)
Theorem chat_session_changes_only_its_message
  (JSON_parse : jsstring -> option JsVal)
  (env : ChatInterface.Env) (st : ChatInterface.State) (transport : list Settled) :
  JsString.trim (ChatInterface.inputMessage st) <> [] ->
  ChatInterface.isTyping st = false ->
  Forall (fun m => ChatInterface.id m <> ChatInterface.botMessageId env)
         (ChatInterface.messages st) ->
  ChatInterface.userMessageId env <> ChatInterface.botMessageId env ->
  let final := ChatInterface.handleSendMessage JSON_parse env st transport in
  exists content,
    ChatInterface.messages (ChatInterface.ui final)
    = ChatInterface.messages st
      ++ [Lifecycle.user_message env st;
          ReadLoop.bot_message env content
            (match ChatInterface.phase final with
             | ChatInterface.Returned => false
             | _ => true
             end)].
Proof.
  intros Hin Hty Hfresh Huser final.
  pose proof (handleSendMessage_chat_session JSON_parse env st transport Hin Hty)
    as (HM & _ & _ & _ & HP).
  fold final in HM, HP.
  assert (HN : exists content,
             nth_error (ChatInterface.messages (ChatInterface.ui final))
                       (ReadLoop.bot_position st)
             = Some (ReadLoop.bot_message env content
                       (match ChatInterface.phase final with
                        | ChatInterface.Returned => false
                        | _ => true
                        end))).
  { destruct (ChatInterface.phase final); tauto. }
  clear HP. destruct HN as [content HN]. exists content.
  apply Forall2_app_inv_l in HM as (l1 & l2 & H1 & H2 & E).
  rewrite E in *. clear E.
  apply touched_fresh in H1; [|exact Hfresh]. subst l1.
  inversion H2 as [|u1 u2 t1 t2 Hu Ht]; subst.
  inversion Ht as [|b1 b2 t3 t4 Hb Hnil]; subst.
  inversion Hnil; subst.
  destruct Hu as (_ & _ & _ & Eu). rewrite (Eu Huser).
  unfold ReadLoop.bot_position in HN. rewrite nth_error_bot in HN.
  now injection HN as ->.
Qed.

Lemma chat_session_changes_only_its_message_witness :
  let final :=
    ChatInterface.handleSendMessage JSON.parse Fixtures.chat_env Fixtures.chat0
      (Response true (u "OK") true :: map Chunk Fixtures.no_data_reads
       ++ [ReadRejected (mkError (u "TypeError") (u "network error"))]) in
  exists content,
    ChatInterface.messages (ChatInterface.ui final)
    = ChatInterface.messages Fixtures.chat0
      ++ [Lifecycle.user_message Fixtures.chat_env Fixtures.chat0;
          ReadLoop.bot_message Fixtures.chat_env content
            (match ChatInterface.phase final with
             | ChatInterface.Returned => false
             | _ => true
             end)].
Proof.
  apply (chat_session_changes_only_its_message JSON.parse Fixtures.chat_env
           Fixtures.chat0).
  - vm_compute. discriminate.
  - reflexivity.
  - repeat constructor. vm_compute. discriminate.
  - vm_compute. discriminate.
Defined.

(** X2. The typing flag follows the handler.  From a submit that the
    guard lets through, and whatever the transport does: while the handler
    is suspended [isTyping] is true, so the submit button is disabled with
    status streaming; once it has returned [isTyping] is false, the status
    is ready, no message carrying the handler's id still streams or shows
    the loader, and the input is empty throughout. *)
Theorem chat_flags_follow_the_handler
  (JSON_parse : jsstring -> option JsVal)
  (env : ChatInterface.Env) (st : ChatInterface.State) (transport : list Settled) :
  JsString.trim (ChatInterface.inputMessage st) <> [] ->
  ChatInterface.isTyping st = false ->
  let final := ChatInterface.handleSendMessage JSON_parse env st transport in
  ChatInterface.inputMessage (ChatInterface.ui final) = []
  /\ ChatInterface.submit_disabled (ChatInterface.ui final) = true
  /\ match ChatInterface.phase final with
     | ChatInterface.Returned =>
         ChatInterface.isTyping (ChatInterface.ui final) = false
         /\ ChatInterface.submit_status (ChatInterface.ui final) = u "ready"
         /\ forall m,
             In m (ChatInterface.messages (ChatInterface.ui final)) ->
             ChatInterface.id m = ChatInterface.botMessageId env ->
             ChatInterface.isStreaming m = Some false
             /\ ChatInterface.shows_loader m = false
     | _ =>
         ChatInterface.isTyping (ChatInterface.ui final) = true
         /\ ChatInterface.submit_status (ChatInterface.ui final) = u "streaming"
     end.
Proof.
  intros Hin Hty final.
  pose proof (handleSendMessage_chat_session JSON_parse env st transport Hin Hty)
    as (_ & HI & _ & _ & HP).
  fold final in HI, HP.
  split; [exact HI|]. split.
  { unfold ChatInterface.submit_disabled. now rewrite HI. }
  unfold ChatInterface.submit_status.
  destruct (ChatInterface.phase final).
  - destruct HP as (_ & -> & _). auto.
  - destruct HP as (_ & -> & _). auto.
  - destruct HP as (-> & _ & HF). rewrite Forall_forall in HF.
    split; [reflexivity|]. split; [reflexivity|].
    intros m Hm Hid. split; [now apply HF|].
    unfold ChatInterface.shows_loader. now rewrite (HF m Hm Hid).
Qed.

Lemma chat_flags_follow_the_handler_witness :
  let final :=
    ChatInterface.handleSendMessage JSON.parse Fixtures.chat_env Fixtures.chat0
      (Response true (u "OK") true :: map Chunk Fixtures.hello_reads) in
  ChatInterface.inputMessage (ChatInterface.ui final) = []
  /\ ChatInterface.submit_disabled (ChatInterface.ui final) = true
  /\ match ChatInterface.phase final with
     | ChatInterface.Returned =>
         ChatInterface.isTyping (ChatInterface.ui final) = false
         /\ ChatInterface.submit_status (ChatInterface.ui final) = u "ready"
         /\ forall m,
             In m (ChatInterface.messages (ChatInterface.ui final)) ->
             ChatInterface.id m = ChatInterface.botMessageId Fixtures.chat_env ->
             ChatInterface.isStreaming m = Some false
             /\ ChatInterface.shows_loader m = false
     | _ =>
         ChatInterface.isTyping (ChatInterface.ui final) = true
         /\ ChatInterface.submit_status (ChatInterface.ui final) = u "streaming"
     end.
Proof.
  apply (chat_flags_follow_the_handler JSON.parse Fixtures.chat_env Fixtures.chat0).
  - vm_compute. discriminate.
  - reflexivity.
Defined.


Lemma reading_rejected (JSON_parse : jsstring -> option JsVal)
  (env : ChatInterface.Env) (pos : nat) (acc : jsstring)
  (c : ChatInterface.Config) (e : JsError) :
  ReadLoop.reading env pos acc c ->
  let c' := ChatInterface.resume JSON_parse c (ReadRejected e) in
  nth_error (ChatInterface.messages (ChatInterface.ui c')) pos
  = Some (ReadLoop.bot_message env ChatInterface.FALLBACK false)
  /\ ChatInterface.isTyping (ChatInterface.ui c') = false
  /\ ChatInterface.phase c' = ChatInterface.Returned.
Proof.
  intros [(decoder & Hphase & _) Hbot] c'. subst c'.
  unfold ChatInterface.resume. rewrite Hphase.
  unfold ChatInterface.on_finally, ChatInterface.on_catch,
    ChatInterface.setMessages, ChatInterface.setIsTyping.
  cbn [ChatInterface.ui ChatInterface.phase ChatInterface.messages
       ChatInterface.isTyping].
  repeat split.
  pose proof (nth_error_set_content (ChatInterface.botMessageId env)
                ChatInterface.FALLBACK _ _ _ Hbot eq_refl) as Hset.
  exact (nth_error_set_not_streaming (ChatInterface.botMessageId env)
           _ _ _ Hset eq_refl).
Qed.

(** X4. A rejection discards what had been received.  If [fetch] rejects,
    or the reader rejects after any number of reads, the handler's message
    ends with the fallback text as its content (the text accumulated so far
    is replaced), no longer streams, and the typing flag is cleared. *)
Theorem chat_rejection_replaces_partial_text
  (JSON_parse : jsstring -> option JsVal)
  (env : ChatInterface.Env) (st : ChatInterface.State) (statusText : jsstring)
  (reads : list (list byte)) (e : JsError) :
  JsString.trim (ChatInterface.inputMessage st) <> [] ->
  ChatInterface.isTyping st = false ->
  let failed_read :=
    ChatInterface.handleSendMessage JSON_parse env st
      (Response true statusText true :: map Chunk reads ++ [ReadRejected e]) in
  let failed_fetch :=
    ChatInterface.handleSendMessage JSON_parse env st [FetchRejected e] in
  (nth_error (ChatInterface.messages (ChatInterface.ui failed_read))
             (ReadLoop.bot_position st)
   = Some (ReadLoop.bot_message env ChatInterface.FALLBACK false)
   /\ ChatInterface.isTyping (ChatInterface.ui failed_read) = false
   /\ ChatInterface.phase failed_read = ChatInterface.Returned)
  /\ (nth_error (ChatInterface.messages (ChatInterface.ui failed_fetch))
                (ReadLoop.bot_position st)
      = Some (ReadLoop.bot_message env ChatInterface.FALLBACK false)
      /\ ChatInterface.isTyping (ChatInterface.ui failed_fetch) = false
      /\ ChatInterface.phase failed_fetch = ChatInterface.Returned).
Proof.
  intros Hin Hty failed_read failed_fetch. split.
  - subst failed_read. unfold ChatInterface.handleSendMessage.
    cbn [fold_left]. rewrite fold_left_app. cbn [fold_left].
    eapply reading_rejected.
    apply resume_chunks. now apply session_start.
  - subst failed_fetch. unfold ChatInterface.handleSendMessage.
    cbn [fold_left].
    destruct (enter_sends env st Hin Hty) as (Hph & _ & Hmsgs).
    unfold ChatInterface.resume. rewrite Hph.
    unfold ChatInterface.on_finally, ChatInterface.on_catch,
      ChatInterface.setMessages, ChatInterface.setIsTyping.
    cbn [ChatInterface.ui ChatInterface.phase ChatInterface.messages
         ChatInterface.isTyping].
    rewrite Hmsgs. repeat split.
    pose proof (nth_error_bot (ChatInterface.messages st)
                  (ChatInterface.mkChatMessage (ChatInterface.userMessageId env)
                     (JsString.trim (ChatInterface.inputMessage st)) user
                     (ChatInterface.userTimestamp env) None)
                  (ReadLoop.bot_message env [] true)) as Hnth.
    pose proof (nth_error_set_content (ChatInterface.botMessageId env)
                  ChatInterface.FALLBACK _ _ _ Hnth eq_refl) as Hset.
    exact (nth_error_set_not_streaming (ChatInterface.botMessageId env)
             _ _ _ Hset eq_refl).
Qed.

Lemma chat_rejection_replaces_partial_text_witness :
  let e := mkError (u "TypeError") (u "network error") in
  let failed_read :=
    ChatInterface.handleSendMessage JSON.parse Fixtures.chat_env Fixtures.chat0
      (Response true (u "OK") true
       :: map Chunk Fixtures.late_chunk_reads ++ [ReadRejected e]) in
  let failed_fetch :=
    ChatInterface.handleSendMessage JSON.parse Fixtures.chat_env Fixtures.chat0
      [FetchRejected e] in
  (nth_error (ChatInterface.messages (ChatInterface.ui failed_read))
             (ReadLoop.bot_position Fixtures.chat0)
   = Some (ReadLoop.bot_message Fixtures.chat_env ChatInterface.FALLBACK false)
   /\ ChatInterface.isTyping (ChatInterface.ui failed_read) = false
   /\ ChatInterface.phase failed_read = ChatInterface.Returned)
  /\ (nth_error (ChatInterface.messages (ChatInterface.ui failed_fetch))
                (ReadLoop.bot_position Fixtures.chat0)
      = Some (ReadLoop.bot_message Fixtures.chat_env ChatInterface.FALLBACK false)
      /\ ChatInterface.isTyping (ChatInterface.ui failed_fetch) = false
      /\ ChatInterface.phase failed_fetch = ChatInterface.Returned).
Proof.
  intros e.
  apply (chat_rejection_replaces_partial_text JSON.parse Fixtures.chat_env
           Fixtures.chat0 (u "OK") Fixtures.late_chunk_reads e).
  - vm_compute. discriminate.
  - reflexivity.
Defined.

(** X5. A reset orphans the running session.  After [handleReset], the
    list holds the greeting alone, with id 1; the handler of a request
    still in flight looks its message up by id, finds none, and nothing it
    does afterwards shows in the state, whatever the transport delivers. *)
Theorem reset_orphans_running_session
  (JSON_parse : jsstring -> option JsVal)
  (newSessionId : jsstring) (now : N) (c : ChatInterface.Config)
  (transport : list Settled) :
  ChatInterface.phase_bot (ChatInterface.phase c) <> Some (u "1") ->
  ChatInterface.ui
    (fold_left (ChatInterface.resume JSON_parse) transport
       (ChatInterface.reset_clicked newSessionId now c))
  = ChatInterface.handleReset newSessionId now (ChatInterface.ui c).
Proof.
  intros Hbot.
  assert (Hinv : forall c',
             ChatInterface.phase_bot (ChatInterface.phase c') <> Some (u "1") ->
             ChatInterface.ui c'
             = ChatInterface.handleReset newSessionId now (ChatInterface.ui c) ->
             forall s,
               ChatInterface.phase_bot
                 (ChatInterface.phase (ChatInterface.resume JSON_parse c' s))
               <> Some (u "1")
               /\ ChatInterface.ui (ChatInterface.resume JSON_parse c' s)
                  = ChatInterface.handleReset newSessionId now (ChatInterface.ui c)).
  { intros c' Hb Hui s.
    assert (Hone : forall bot l,
               bot <> u "1" ->
               Forall2 (ChatInterface.touched bot)
                       (ChatInterface.messages (ChatInterface.ui c')) l ->
               l = ChatInterface.messages (ChatInterface.ui c')).
    { intros bot l Hne HF. apply (touched_fresh bot _ _ HF).
      rewrite Hui. repeat constructor. cbn. intros E. apply Hne. now rewrite <- E. }
    assert (Hfin : forall bot,
               bot <> u "1" ->
               ChatInterface.ui (ChatInterface.on_finally bot c')
               = ChatInterface.ui c'
               /\ ChatInterface.ui
                    (ChatInterface.on_finally bot (ChatInterface.on_catch bot c'))
                  = ChatInterface.ui c').
    { intros bot Hne. split; apply state_ext; cbn; try (rewrite Hui; reflexivity).
      - apply (Hone bot _ Hne), touched_set_not_streaming.
      - apply (Hone bot _ Hne).
        eapply touched_compose;
          [apply touched_set_content|apply touched_set_not_streaming]. }
    unfold ChatInterface.resume.
    destruct (ChatInterface.phase c') as [bot|bot decoder acc|] eqn:Ephase;
      cbn [ChatInterface.phase_bot] in Hb.
    - assert (Hne : bot <> u "1") by congruence.
      destruct (Hfin bot Hne) as [F1 F2].
      destruct s; try (rewrite Ephase; cbn; now split).
      + destruct (negb ok || negb hasBody); cbn; [|now split].
        split; [discriminate|]. now rewrite <- Hui.
      + cbn. split; [discriminate|]. now rewrite <- Hui.
    - assert (Hne : bot <> u "1") by congruence.
      destruct (Hfin bot Hne) as [F1 F2].
      destruct s; try (rewrite Ephase; cbn; now split).
      + destruct (TextDecoder.decode decoder value false) as [chunk decoder'].
        pose proof (process_lines_touched JSON_parse bot
                      (ChatInterface.lines_of chunk) c' acc)
          as (PM & PI & PT & PS & _ & _).
        destruct (ChatInterface.process_lines JSON_parse bot (c', acc)
                    (ChatInterface.lines_of chunk)) as [c2 acc2].
        cbn [fst] in *. cbn. split; [exact Hb|].
        rewrite <- Hui. apply state_ext; auto.
        now apply (Hone bot).
      + cbn. split; [discriminate|]. now rewrite <- Hui.
      + cbn. split; [discriminate|]. now rewrite <- Hui.
    - destruct s; rewrite Ephase; cbn; now split. }
  assert (Hstart : ChatInterface.ui (ChatInterface.reset_clicked newSessionId now c)
                   = ChatInterface.handleReset newSessionId now (ChatInterface.ui c))
    by reflexivity.
  assert (Hb0 : ChatInterface.phase_bot
                  (ChatInterface.phase (ChatInterface.reset_clicked newSessionId now c))
                <> Some (u "1")) by exact Hbot.
  revert Hstart Hb0. generalize (ChatInterface.reset_clicked newSessionId now c).
  induction transport as [|s transport IH]; intros c0 Hui0 Hb0; [exact Hui0|].
  cbn [fold_left]. destruct (Hinv c0 Hb0 Hui0 s) as [Hb1 Hui1].
  now apply IH.
Qed.

Lemma reset_orphans_running_session_witness :
  let c :=
    fold_left (ChatInterface.resume JSON.parse)
      [Response true (u "OK") true;
       Chunk (qbytes "{'type':'chunk','data':'Hel'}" ++ [x0a])]
      (ChatInterface.enter Fixtures.chat_env Fixtures.chat0) in
  ChatInterface.ui
    (fold_left (ChatInterface.resume JSON.parse)
       [Chunk Fixtures.late_chunk; Done]
       (ChatInterface.reset_clicked (u "session-B") 3000 c))
  = ChatInterface.handleReset (u "session-B") 3000 (ChatInterface.ui c).
Proof.
  intros c.
  apply (reset_orphans_running_session JSON.parse (u "session-B") 3000 c
           [Chunk Fixtures.late_chunk; Done]).
  vm_compute. discriminate.
Defined.

(** X6. The Thinking loader stands for an answer that has not started.
    While the read loop runs, the handler's message is drawn as the loader
    exactly as long as nothing has been accumulated from the lines read so
    far; once the reader signals [done] it is no longer drawn as the
    loader, even if the stream was empty. *)
Theorem loader_shown_until_text_arrives
  (JSON_parse : jsstring -> option JsVal)
  (env : ChatInterface.Env) (st : ChatInterface.State) (statusText : jsstring)
  (reads : list (list byte)) :
  JsString.trim (ChatInterface.inputMessage st) <> [] ->
  ChatInterface.isTyping st = false ->
  let running :=
    ChatInterface.handleSendMessage JSON_parse env st
      (Response true statusText true :: map Chunk reads) in
  let done := ChatInterface.resume JSON_parse running Done in
  let acc := ReadLoop.accumulate JSON_parse [] (ReadLoop.all_lines reads) in
  option_map ChatInterface.shows_loader
    (nth_error (ChatInterface.messages (ChatInterface.ui running))
               (ReadLoop.bot_position st))
  = Some (negb (JsString.truthy acc))
  /\ option_map ChatInterface.shows_loader
       (nth_error (ChatInterface.messages (ChatInterface.ui done))
                  (ReadLoop.bot_position st))
     = Some false.
Proof.
  intros Hin Hty running done acc.
  assert (Hr : ReadLoop.reading env (ReadLoop.bot_position st) acc running).
  { subst running acc. unfold ChatInterface.handleSendMessage. cbn [fold_left].
    apply resume_chunks. now apply session_start. }
  split.
  - destruct Hr as [_ Hbot]. now rewrite Hbot.
  - destruct (session_done JSON_parse env _ _ _ Hr) as (Hbot & _).
    fold done in Hbot. now rewrite Hbot.
Qed.

Lemma loader_shown_until_text_arrives_witness :
  let running :=
    ChatInterface.handleSendMessage JSON.parse Fixtures.chat_env Fixtures.chat0
      (Response true (u "OK") true :: map Chunk [bytes "<html>" ++ [x0a]]) in
  let done := ChatInterface.resume JSON.parse running Done in
  let acc :=
    ReadLoop.accumulate JSON.parse []
      (ReadLoop.all_lines [bytes "<html>" ++ [x0a]]) in
  option_map ChatInterface.shows_loader
    (nth_error (ChatInterface.messages (ChatInterface.ui running))
               (ReadLoop.bot_position Fixtures.chat0))
  = Some (negb (JsString.truthy acc))
  /\ option_map ChatInterface.shows_loader
       (nth_error (ChatInterface.messages (ChatInterface.ui done))
                  (ReadLoop.bot_position Fixtures.chat0))
     = Some false.
Proof.
  apply (loader_shown_until_text_arrives JSON.parse Fixtures.chat_env
           Fixtures.chat0 (u "OK") [bytes "<html>" ++ [x0a]]).
  - vm_compute. discriminate.
  - reflexivity.
Defined.

Lemma split_lines_nonempty (s : jsstring) : JsString.split_lines s <> [].
Proof.
  destruct s as [|c s]; cbn; [discriminate|].
  destruct (c =? JsString.LF)%N; [discriminate|].
  destruct (JsString.split_lines s); discriminate.
Qed.

Lemma split_lines_no_LF (s : jsstring) :
  Forall (fun piece => ~ In JsString.LF piece) (JsString.split_lines s).
Proof.
  induction s as [|c s IH]; cbn.
  - repeat constructor. intros [].
  - destruct (N.eqb_spec c JsString.LF) as [->|Hc].
    + constructor; [intros []|exact IH].
    + destruct (JsString.split_lines s) as [|piece pieces].
      * repeat constructor. intros [H|[]]. congruence.
      * inversion IH as [|? ? Hp Hps]; subst. constructor; [|exact Hps].
        intros [H|H]; [congruence|contradiction].
Qed.

(** X7. Every line the framing hands to [JSON.parse] is free of line
    feeds and is not blank, whatever text the read decodes to. *)
Theorem lines_of_are_complete_lines (chunk : jsstring) :
  Forall Spec.complete_line (ChatInterface.lines_of chunk).
Proof.
  unfold ChatInterface.lines_of. apply Forall_forall. intros line Hin.
  apply filter_In in Hin as [Hin Hnb]. split.
  - pose proof (split_lines_no_LF chunk) as H.
    rewrite Forall_forall in H. now apply H.
  - now apply truthy_true.
Qed.

(** X8. Splitting loses nothing: the pieces of [split] joined again by line
    feeds are the text that was split.  (What the framing drops, it drops
    in the filter that follows.) *)
Theorem join_split_lines (s : jsstring) :
  ChatInterface.join_lines (JsString.split_lines s) = s.
Proof.
  induction s as [|c s IH]; [reflexivity|].
  cbn [JsString.split_lines].
  pose proof (split_lines_nonempty s) as Hne.
  destruct (N.eqb_spec c JsString.LF) as [->|Hc].
  - destruct (JsString.split_lines s) as [|piece pieces]; [contradiction|].
    change (JsString.LF :: ChatInterface.join_lines (piece :: pieces)
            = JsString.LF :: s).
    now rewrite IH.
  - destruct (JsString.split_lines s) as [|piece pieces]; [contradiction|].
    rewrite <- IH. destruct pieces; reflexivity.
Qed.

(** ** Properties of the raw-text hook *)

Lemma enter_hook_session (env : UseStreamingChat.Env) (s0 : UseStreamingChat.State) :
  JsString.trim (UseStreamingChat.input s0) <> [] ->
  Lifecycle.hook_session env s0 (UseStreamingChat.enter env s0).
Proof.
  intros Hin. unfold Lifecycle.hook_session, UseStreamingChat.enter.
  apply truthy_true in Hin. rewrite Hin. cbn. auto.
Qed.

Lemma finally_hook_session (env : UseStreamingChat.Env) (s0 : UseStreamingChat.State)
  (c : UseStreamingChat.Config) :
  UseStreamingChat.input (UseStreamingChat.st c) = [] ->
  UseStreamingChat.fetched c = [UseStreamingChat.request_of env s0] ->
  (UseStreamingChat.messages (UseStreamingChat.st c)
   = UseStreamingChat.messages s0 ++ [Lifecycle.hook_user_message env s0]
   \/ exists part,
       UseStreamingChat.messages (UseStreamingChat.st c)
       = (UseStreamingChat.messages s0 ++ [Lifecycle.hook_user_message env s0])
         ++ [Lifecycle.hook_assistant env part]) ->
  forall err,
    Lifecycle.hook_session env s0 (UseStreamingChat.on_finally c)
    /\ Lifecycle.hook_session env s0
         (UseStreamingChat.on_finally (UseStreamingChat.on_catch err c)).
Proof.
  intros HI HF HM err. unfold Lifecycle.hook_session, UseStreamingChat.on_catch.
  destruct (negb (JsString.eqb (name err) (u "AbortError"))); cbn;
    repeat split; auto.
Qed.

Lemma hook_session_messages (env : UseStreamingChat.Env) (s0 : UseStreamingChat.State)
  (c : UseStreamingChat.Config) :
  Lifecycle.hook_session env s0 c ->
  UseStreamingChat.messages (UseStreamingChat.st c)
  = UseStreamingChat.messages s0 ++ [Lifecycle.hook_user_message env s0]
  \/ exists part,
      UseStreamingChat.messages (UseStreamingChat.st c)
      = (UseStreamingChat.messages s0 ++ [Lifecycle.hook_user_message env s0])
        ++ [Lifecycle.hook_assistant env part].
Proof.
  intros (_ & _ & HP).
  destruct (UseStreamingChat.phase c) as [signal|signal decoder [|]|]; auto.
  now destruct HP.
Qed.

Lemma resume_hook_session (env : UseStreamingChat.Env) (s0 : UseStreamingChat.State)
  (c : UseStreamingChat.Config) (e : UseStreamingChat.Event) :
  Lifecycle.hook_session env s0 c ->
  Lifecycle.hook_session env s0 (UseStreamingChat.resume env c e).
Proof.
  intros H. pose proof (hook_session_messages env s0 c H) as HM.
  pose proof H as (HI & HF & HP).
  destruct e as [s|].
  - cbn [UseStreamingChat.resume]. unfold UseStreamingChat.settle.
    destruct (UseStreamingChat.phase c) as [signal|signal decoder first|] eqn:Ephase.
    + destruct s; try exact H.
      * destruct (negb ok || negb hasBody).
        -- apply (finally_hook_session env s0 c HI HF HM).
        -- unfold Lifecycle.hook_session. cbn. auto.
      * apply (finally_hook_session env s0 c HI HF HM).
    + destruct s; try exact H.
      * destruct (TextDecoder.decode decoder value true) as [chunk decoder'].
        destruct first.
        -- unfold Lifecycle.hook_session. cbn. repeat split; auto.
           exists (UseStreamingChat.text_part chunk).
           unfold UseStreamingChat.push_assistant. now rewrite HP.
        -- destruct HP as [part HP].
           unfold Lifecycle.hook_session. cbn. repeat split; auto.
           rewrite HP.
           rewrite (append_to_last_array chunk _ (Lifecycle.hook_assistant env part)
                      [part] eq_refl).
           eexists. reflexivity.
      * apply (finally_hook_session env s0 c HI HF HM (mkError [] [])).
      * apply (finally_hook_session env s0 c HI HF HM).
    + exact H.
  - cbn [UseStreamingChat.resume].
    set (c' := UseStreamingChat.mkConfig (UseStreamingChat.stop (UseStreamingChat.st c))
                 (UseStreamingChat.fetched c) (UseStreamingChat.phase c)).
    assert (Hm : UseStreamingChat.messages (UseStreamingChat.st c')
                 = UseStreamingChat.messages (UseStreamingChat.st c)
                 /\ UseStreamingChat.input (UseStreamingChat.st c')
                    = UseStreamingChat.input (UseStreamingChat.st c)
                 /\ UseStreamingChat.isLoading (UseStreamingChat.st c')
                    = UseStreamingChat.isLoading (UseStreamingChat.st c)
                 /\ (UseStreamingChat.abortControllerRef (UseStreamingChat.st c) = None ->
                     UseStreamingChat.abortControllerRef (UseStreamingChat.st c') = None)).
    { subst c'. cbn. unfold UseStreamingChat.stop.
      destruct (UseStreamingChat.abortControllerRef (UseStreamingChat.st c))
        eqn:Eref; cbn; repeat split; auto. }
    destruct Hm as (Hm1 & Hm2 & Hm3 & Hm4).
    assert (H' : Lifecycle.hook_session env s0 c').
    { unfold Lifecycle.hook_session.
      change (UseStreamingChat.phase c') with (UseStreamingChat.phase c).
      change (UseStreamingChat.fetched c') with (UseStreamingChat.fetched c).
      cbv zeta. rewrite Hm1, Hm2, Hm3.
      split; [exact HI|]. split; [exact HF|].
      destruct (UseStreamingChat.phase c) as [signal|signal decoder [|]|]; auto.
      destruct HP as (A & B & C). auto. }
    change (UseStreamingChat.phase c') with (UseStreamingChat.phase c).
    destruct (UseStreamingChat.pending_signal (UseStreamingChat.phase c)); [|exact H'].
    destruct (UseStreamingChat.aborted n (UseStreamingChat.st c')); [|exact H'].
    apply finally_hook_session.
    + now rewrite Hm2.
    + exact HF.
    + now rewrite Hm1.
Qed.

Lemma handleSubmit_hook_session (env : UseStreamingChat.Env)
  (s0 : UseStreamingChat.State) (events : list UseStreamingChat.Event) :
  JsString.trim (UseStreamingChat.input s0) <> [] ->
  Lifecycle.hook_session env s0 (UseStreamingChat.handleSubmit env s0 events).
Proof.
  intros Hin. unfold UseStreamingChat.handleSubmit.
  generalize (enter_hook_session env s0 Hin).
  generalize (UseStreamingChat.enter env s0).
  induction events as [|e events IH]; intros c Hc; cbn; [exact Hc|].
  apply IH. now apply resume_hook_session.
Qed.

(** X9. The loading flag follows the handler.  From a submit with
    non-blank input, and whatever the caller and the transport do: the
    input stays empty and exactly one request has been issued (no retry);
    while the handler is suspended [isLoading] is true, no error is
    recorded and the ref holds the controller of the request; once it has
    returned, by whichever path, [isLoading] is false and the ref is
    cleared. *)
Theorem hook_flags_follow_the_handler
  (env : UseStreamingChat.Env) (s0 : UseStreamingChat.State)
  (events : list UseStreamingChat.Event) :
  JsString.trim (UseStreamingChat.input s0) <> [] ->
  let final := UseStreamingChat.handleSubmit env s0 events in
  UseStreamingChat.input (UseStreamingChat.st final) = []
  /\ UseStreamingChat.fetched final = [UseStreamingChat.request_of env s0]
  /\ match UseStreamingChat.phase final with
     | UseStreamingChat.Returned =>
         UseStreamingChat.isLoading (UseStreamingChat.st final) = false
         /\ UseStreamingChat.abortControllerRef (UseStreamingChat.st final) = None
     | p =>
         UseStreamingChat.isLoading (UseStreamingChat.st final) = true
         /\ UseStreamingChat.error (UseStreamingChat.st final) = None
         /\ UseStreamingChat.abortControllerRef (UseStreamingChat.st final)
            = UseStreamingChat.pending_signal p
     end.
Proof.
  intros Hin final.
  pose proof (handleSubmit_hook_session env s0 events Hin) as (HI & HF & HP).
  pose proof (handleSubmit_in_flight env s0 events) as Hfl.
  fold final in HI, HF, HP, Hfl. unfold UseStreamingChat.in_flight in Hfl.
  split; [exact HI|]. split; [exact HF|].
  destruct (UseStreamingChat.phase final); cbn in Hfl |- *.
  - destruct Hfl as (A & _ & B & C). auto.
  - destruct Hfl as (A & _ & B & C). auto.
  - destruct HP as (_ & A & B). auto.
Qed.

Lemma hook_flags_follow_the_handler_witness :
  let final :=
    UseStreamingChat.handleSubmit Fixtures.hook_env Fixtures.hook0
      (firstn 3 Fixtures.hi_there ++ [UseStreamingChat.CallStop]) in
  UseStreamingChat.input (UseStreamingChat.st final) = []
  /\ UseStreamingChat.fetched final
     = [UseStreamingChat.request_of Fixtures.hook_env Fixtures.hook0]
  /\ match UseStreamingChat.phase final with
     | UseStreamingChat.Returned =>
         UseStreamingChat.isLoading (UseStreamingChat.st final) = false
         /\ UseStreamingChat.abortControllerRef (UseStreamingChat.st final) = None
     | p =>
         UseStreamingChat.isLoading (UseStreamingChat.st final) = true
         /\ UseStreamingChat.error (UseStreamingChat.st final) = None
         /\ UseStreamingChat.abortControllerRef (UseStreamingChat.st final)
            = UseStreamingChat.pending_signal p
     end.
Proof.
  apply (hook_flags_follow_the_handler Fixtures.hook_env Fixtures.hook0).
  vm_compute. discriminate.
Defined.

(** X10. One submit creates at most one assistant message.  Whatever the
    caller and the transport do, and however many chunks arrive, the list
    is the one at entry, then the user message with the input as typed,
    then nothing or a single assistant message holding a single part. *)
Theorem hook_creates_at_most_one_assistant_message
  (env : UseStreamingChat.Env) (s0 : UseStreamingChat.State)
  (events : list UseStreamingChat.Event) :
  JsString.trim (UseStreamingChat.input s0) <> [] ->
  let final := UseStreamingChat.handleSubmit env s0 events in
  UseStreamingChat.messages (UseStreamingChat.st final)
  = UseStreamingChat.messages s0 ++ [Lifecycle.hook_user_message env s0]
  \/ exists part,
      UseStreamingChat.messages (UseStreamingChat.st final)
      = (UseStreamingChat.messages s0 ++ [Lifecycle.hook_user_message env s0])
        ++ [Lifecycle.hook_assistant env part].
Proof.
  intros Hin final. apply hook_session_messages.
  now apply handleSubmit_hook_session.
Qed.

Lemma hook_creates_at_most_one_assistant_message_witness :
  let final :=
    UseStreamingChat.handleSubmit Fixtures.hook_env Fixtures.hook0
      Fixtures.hi_there in
  UseStreamingChat.messages (UseStreamingChat.st final)
  = UseStreamingChat.messages Fixtures.hook0
    ++ [Lifecycle.hook_user_message Fixtures.hook_env Fixtures.hook0]
  \/ exists part,
      UseStreamingChat.messages (UseStreamingChat.st final)
      = (UseStreamingChat.messages Fixtures.hook0
         ++ [Lifecycle.hook_user_message Fixtures.hook_env Fixtures.hook0])
        ++ [Lifecycle.hook_assistant Fixtures.hook_env part].
Proof.
  apply (hook_creates_at_most_one_assistant_message Fixtures.hook_env
           Fixtures.hook0 Fixtures.hi_there).
  vm_compute. discriminate.
Defined.

Lemma stop_frame (s : UseStreamingChat.State) :
  UseStreamingChat.stop (UseStreamingChat.stop s) = UseStreamingChat.stop s
  /\ UseStreamingChat.abortControllerRef (UseStreamingChat.stop s) = None
  /\ UseStreamingChat.messages (UseStreamingChat.stop s) = UseStreamingChat.messages s
  /\ UseStreamingChat.input (UseStreamingChat.stop s) = UseStreamingChat.input s
  /\ UseStreamingChat.isLoading (UseStreamingChat.stop s) = UseStreamingChat.isLoading s
  /\ UseStreamingChat.error (UseStreamingChat.stop s) = UseStreamingChat.error s.
Proof.
  unfold UseStreamingChat.stop.
  destruct (UseStreamingChat.abortControllerRef s) eqn:E; cbn;
    rewrite ?E; repeat split; auto.
Qed.

(** X11. [stop] is idempotent and final.  It touches nothing but the ref
    and the controller it aborts, and a second call changes nothing.
    Called while the request is in flight it ends the handler for good:
    further calls of [stop] and late settlements of the transport leave
    the hook as it is. *)
Theorem stop_is_idempotent_and_final
  (env : UseStreamingChat.Env) (s0 : UseStreamingChat.State)
  (events later : list UseStreamingChat.Event) :
  let c := UseStreamingChat.handleSubmit env s0 events in
  UseStreamingChat.phase c <> UseStreamingChat.Returned ->
  let stopped := UseStreamingChat.resume env c UseStreamingChat.CallStop in
  fold_left (UseStreamingChat.resume env) later stopped = stopped
  /\ UseStreamingChat.stop (UseStreamingChat.st stopped) = UseStreamingChat.st stopped
  /\ forall s,
      UseStreamingChat.stop (UseStreamingChat.stop s) = UseStreamingChat.stop s
      /\ UseStreamingChat.messages (UseStreamingChat.stop s)
         = UseStreamingChat.messages s
      /\ UseStreamingChat.input (UseStreamingChat.stop s) = UseStreamingChat.input s
      /\ UseStreamingChat.isLoading (UseStreamingChat.stop s)
         = UseStreamingChat.isLoading s
      /\ UseStreamingChat.error (UseStreamingChat.stop s) = UseStreamingChat.error s.
Proof.
  intros c Hphase stopped.
  assert (Hs : UseStreamingChat.phase stopped = UseStreamingChat.Returned
               /\ UseStreamingChat.abortControllerRef (UseStreamingChat.st stopped)
                  = None).
  { pose proof (handleSubmit_in_flight env s0 events) as Hin. fold c in Hin.
    subst stopped. destruct c as [s f p]. unfold UseStreamingChat.in_flight in Hin.
    cbn in Hphase, Hin |- *.
    destruct p as [signal|signal decoder first|]; [| |congruence];
      destruct Hin as (Href & Hlt & _);
      unfold UseStreamingChat.stop, UseStreamingChat.aborted;
      rewrite Href; cbn; rewrite (nth_set_aborted _ _ Hlt); cbn; auto. }
  destruct Hs as [Hp Hr]. split; [|split].
  - now apply returned_is_final.
  - unfold UseStreamingChat.stop. now rewrite Hr.
  - intros s. pose proof (stop_frame s). tauto.
Qed.

Lemma stop_is_idempotent_and_final_witness :
  let c :=
    UseStreamingChat.handleSubmit Fixtures.hook_env Fixtures.hook0
      (firstn 2 Fixtures.hi_there) in
  let later :=
    [UseStreamingChat.CallStop; UseStreamingChat.Settle (Chunk (bytes "there"));
     UseStreamingChat.Settle Done] in
  let stopped :=
    UseStreamingChat.resume Fixtures.hook_env c UseStreamingChat.CallStop in
  fold_left (UseStreamingChat.resume Fixtures.hook_env) later stopped = stopped
  /\ UseStreamingChat.stop (UseStreamingChat.st stopped) = UseStreamingChat.st stopped
  /\ forall s,
      UseStreamingChat.stop (UseStreamingChat.stop s) = UseStreamingChat.stop s
      /\ UseStreamingChat.messages (UseStreamingChat.stop s)
         = UseStreamingChat.messages s
      /\ UseStreamingChat.input (UseStreamingChat.stop s) = UseStreamingChat.input s
      /\ UseStreamingChat.isLoading (UseStreamingChat.stop s)
         = UseStreamingChat.isLoading s
      /\ UseStreamingChat.error (UseStreamingChat.stop s) = UseStreamingChat.error s.
Proof.
  intros c later.
  apply (stop_is_idempotent_and_final Fixtures.hook_env Fixtures.hook0
           (firstn 2 Fixtures.hi_there) later).
  vm_compute. discriminate.
Defined.

Lemma lookup_set (k : jsstring) (v : JsVal) (props : list (jsstring * JsVal)) :
  Js.lookup k (Js.set k v props) = Some v.
Proof.
  induction props as [|[k' v'] props IH]; cbn.
  - now rewrite eqb_refl.
  - destruct (JsString.eqb k k') eqn:E; cbn.
    + now rewrite eqb_refl.
    + now rewrite E.
Qed.

Lemma decode_all_nil (decoder : TextDecoder.t) (values : list (list byte)) :
  UseStreamingChat.decode_all decoder values = [] -> values = [].
Proof.
  destruct values as [|value rest]; [reflexivity|]. cbn.
  destruct (TextDecoder.decode decoder value true). discriminate.
Qed.

(** The chunks after the first. *)
Lemma later_chunks (env : UseStreamingChat.Env) (base : list UseStreamingChat.UIMessage)
  (values : list (list byte)) :
  forall (c : UseStreamingChat.Config) (signal : nat) (decoder : TextDecoder.t)
         (part : JsVal),
    UseStreamingChat.phase c = UseStreamingChat.Reading signal decoder false ->
    UseStreamingChat.messages (UseStreamingChat.st c)
    = base ++ [Lifecycle.hook_assistant env part] ->
    let c' :=
      fold_left (UseStreamingChat.resume env)
        (map (fun value => UseStreamingChat.Settle (Chunk value)) values) c in
    exists decoder' part',
      UseStreamingChat.phase c' = UseStreamingChat.Reading signal decoder' false
      /\ UseStreamingChat.messages (UseStreamingChat.st c')
         = base ++ [Lifecycle.hook_assistant env part']
      /\ (values = [] -> part' = part)
      /\ (values <> [] ->
          Js.Get part' (u "text")
          = Some (JStr (u "undefined"
                        ++ last (UseStreamingChat.decode_all decoder values) []))).
Proof.
  induction values as [|value rest IH]; intros c signal decoder part Hphase Hmsgs.
  - cbn. exists decoder, part. repeat split; auto. congruence.
  - cbn [map fold_left UseStreamingChat.resume].
    rewrite (settle_later_chunk env c signal decoder value Hphase).
    cbn [UseStreamingChat.decode_all].
    destruct (TextDecoder.decode decoder value true) as [chunk decoder'] eqn:Edec.
    cbn [fst snd].
    set (c1 := UseStreamingChat.mkConfig _ _ _).
    assert (Hm1 : UseStreamingChat.messages (UseStreamingChat.st c1)
                  = base ++ [Lifecycle.hook_assistant env
                               (JObj (Js.set (u "text") (JStr (u "undefined" ++ chunk))
                                        (Js.own_props (JArr [part]))))]).
    { subst c1. cbn. rewrite Hmsgs.
      now rewrite (append_to_last_array chunk base
                     (Lifecycle.hook_assistant env part) [part] eq_refl). }
    destruct (IH c1 signal decoder' _ eq_refl Hm1)
      as (decoder2 & part2 & Hp2 & Hm2 & Hnil & Hcons).
    exists decoder2, part2. repeat split; auto; [discriminate|].
    intros _. destruct rest as [|value2 rest2].
    + rewrite (Hnil eq_refl). cbn [UseStreamingChat.decode_all last].
      now rewrite Get_object, lookup_set.
    + rewrite Hcons by discriminate.
      destruct (UseStreamingChat.decode_all decoder' (value2 :: rest2)) eqn:E;
        [now apply decode_all_nil in E|reflexivity].
Qed.

(** X12. What the assistant message holds after any number of chunks.
    With no chunk there is no assistant message; with one, its part has
    the decoded chunk as text; with two or more, the text of its part is
    the rendering of [undefined] followed by the last chunk alone: every
    earlier chunk has been dropped from the text.  In all three cases no
    error is recorded and loading is cleared. *)
Theorem hook_text_after_chunks
  (env : UseStreamingChat.Env) (s0 : UseStreamingChat.State)
  (statusText : jsstring) (values : list (list byte)) :
  JsString.trim (UseStreamingChat.input s0) <> [] ->
  let final :=
    UseStreamingChat.handleSubmit env s0
      (UseStreamingChat.Settle (Response true statusText true)
       :: map (fun value => UseStreamingChat.Settle (Chunk value)) values
       ++ [UseStreamingChat.Settle Done]) in
  let base :=
    UseStreamingChat.messages s0 ++ [Lifecycle.hook_user_message env s0] in
  let texts := UseStreamingChat.decode_all TextDecoder.new values in
  match texts with
  | [] => UseStreamingChat.messages (UseStreamingChat.st final) = base
  | [text] =>
      UseStreamingChat.messages (UseStreamingChat.st final)
      = base ++ [Lifecycle.hook_assistant env (UseStreamingChat.text_part text)]
  | _ :: _ :: _ =>
      exists part,
        UseStreamingChat.messages (UseStreamingChat.st final)
        = base ++ [Lifecycle.hook_assistant env part]
        /\ Js.Get part (u "text")
           = Some (JStr (u "undefined" ++ last texts []))
  end
  /\ UseStreamingChat.error (UseStreamingChat.st final) = None
  /\ UseStreamingChat.isLoading (UseStreamingChat.st final) = false.
Proof.
  intros Hin final base texts.
  destruct (enter_submits env s0 Hin) as [Hphase Hmsgs].
  pose proof (enter_in_flight env s0) as Hfl.
  unfold UseStreamingChat.in_flight in Hfl. rewrite Hphase in Hfl.
  destruct Hfl as (_ & _ & Herr & _).
  subst final. unfold UseStreamingChat.handleSubmit.
  cbn [fold_left UseStreamingChat.resume].
  rewrite (settle_response env _ _ statusText Hphase).
  rewrite fold_left_app. cbn [fold_left UseStreamingChat.resume].
  set (c0 := UseStreamingChat.mkConfig _ _ _).
  destruct values as [|value rest].
  - cbn. auto.
  - cbn [map fold_left UseStreamingChat.resume].
    rewrite (settle_first_chunk env c0 _ _ value eq_refl).
    subst texts. cbn [UseStreamingChat.decode_all].
    destruct (TextDecoder.decode TextDecoder.new value true) as [chunk decoder1].
    cbn [fst snd].
    set (c1 := UseStreamingChat.mkConfig _ _ _).
    assert (Hm1 : UseStreamingChat.messages (UseStreamingChat.st c1)
                  = base ++ [Lifecycle.hook_assistant env
                               (UseStreamingChat.text_part chunk)]).
    { subst c1 c0. cbn. unfold UseStreamingChat.push_assistant. now rewrite Hmsgs. }
    assert (He1 : UseStreamingChat.error (UseStreamingChat.st c1) = None)
      by exact Herr.
    destruct (later_chunks env base rest c1 _ decoder1 _ eq_refl Hm1)
      as (decoder2 & part2 & Hp2 & Hm2 & Hnil & Hcons).
    assert (He2 : UseStreamingChat.error
                    (UseStreamingChat.st
                       (fold_left (UseStreamingChat.resume env)
                          (map (fun value => UseStreamingChat.Settle (Chunk value)) rest)
                          c1)) = None).
    { clear -He1. revert He1.
      assert (Hstep : forall c e,
                 UseStreamingChat.error
                   (UseStreamingChat.st
                      (UseStreamingChat.resume env c
                         (UseStreamingChat.Settle (Chunk e))))
                 = UseStreamingChat.error (UseStreamingChat.st c)).
      { intros c e. cbn. unfold UseStreamingChat.settle.
        destruct (UseStreamingChat.phase c) as [|? decoder [|]|]; try reflexivity;
          destruct (TextDecoder.decode decoder e true); reflexivity. }
      generalize c1. induction rest as [|value2 rest IH]; intros c He; [exact He|].
      cbn [map fold_left]. apply IH. now rewrite Hstep. }
    rewrite (settle_done env _ _ _ _ Hp2).
    cbn [UseStreamingChat.on_finally UseStreamingChat.st UseStreamingChat.messages
         UseStreamingChat.set_ref UseStreamingChat.setIsLoading
         UseStreamingChat.error UseStreamingChat.isLoading].
    split; [|split; [exact He2|reflexivity]].
    destruct (UseStreamingChat.decode_all decoder1 rest) as [|text2 texts2] eqn:E.
    + apply decode_all_nil in E. rewrite Hm2, (Hnil E). reflexivity.
    + exists part2. split; [exact Hm2|].
      rewrite Hcons by (intros ->; discriminate). reflexivity.
Qed.

Lemma hook_text_after_chunks_witness :
  let values := [bytes "Hi "; bytes "the"; bytes "re"] in
  let final :=
    UseStreamingChat.handleSubmit Fixtures.hook_env Fixtures.hook0
      (UseStreamingChat.Settle (Response true (u "OK") true)
       :: map (fun value => UseStreamingChat.Settle (Chunk value)) values
       ++ [UseStreamingChat.Settle Done]) in
  let base :=
    UseStreamingChat.messages Fixtures.hook0
    ++ [Lifecycle.hook_user_message Fixtures.hook_env Fixtures.hook0] in
  let texts := UseStreamingChat.decode_all TextDecoder.new values in
  match texts with
  | [] => UseStreamingChat.messages (UseStreamingChat.st final) = base
  | [text] =>
      UseStreamingChat.messages (UseStreamingChat.st final)
      = base ++ [Lifecycle.hook_assistant Fixtures.hook_env
                   (UseStreamingChat.text_part text)]
  | _ :: _ :: _ =>
      exists part,
        UseStreamingChat.messages (UseStreamingChat.st final)
        = base ++ [Lifecycle.hook_assistant Fixtures.hook_env part]
        /\ Js.Get part (u "text")
           = Some (JStr (u "undefined" ++ last texts []))
  end
  /\ UseStreamingChat.error (UseStreamingChat.st final) = None
  /\ UseStreamingChat.isLoading (UseStreamingChat.st final) = false.
Proof.
  intros values.
  apply (hook_text_after_chunks Fixtures.hook_env Fixtures.hook0 (u "OK") values).
  vm_compute. discriminate.
Defined.

(** ** Properties of the decoding *)

Lemma decode_stream_nil (td : TextDecoder.t) :
  fst (TextDecoder.decode td [] true) = [].
Proof.
  unfold TextDecoder.decode. cbn.
  now destruct (TextDecoder.BOM_seen
                  (if TextDecoder.do_not_flush td then td else TextDecoder.new)).
Qed.

(** X13. In the hook, read boundaries do not matter to the text: however
    the transport cuts the body into reads, the chunks that the successive
    streaming [decode] calls return, put end to end, are the decoding of
    the whole body in one call. *)
Theorem stream_texts_concatenate (td : TextDecoder.t) (values : list (list byte)) :
  List.concat (UseStreamingChat.decode_all td values)
  = fst (TextDecoder.decode td (List.concat values) true).
Proof.
  revert td. induction values as [|value rest IH]; intros td.
  - cbn [List.concat UseStreamingChat.decode_all]. symmetry.
    apply decode_stream_nil.
  - cbn [List.concat UseStreamingChat.decode_all].
    pose proof (decode_stream_split td value (List.concat rest)) as Hsplit.
    cbn zeta in Hsplit. rewrite Hsplit. cbn [fst].
    destruct (TextDecoder.decode td value true) as [chunk td1].
    cbn [List.concat fst snd]. now rewrite IH.
Qed.

Lemma stream_decodes_split_character_witness :
  let r1 := TextDecoder.decode TextDecoder.new [xe2] true in
  let r2 := TextDecoder.decode (snd r1) [x82; xac] true in
  fst r1 ++ fst r2 = TextDecoder.utf16 0x20AC%N
  /\ TextDecoder.decoder (snd r2) = TextDecoder.utf8_init.
Proof.
  apply (stream_decodes_split_character TextDecoder.new 0x20AC%N [xe2] [x82; xac]).
  - left. reflexivity.
  - discriminate.
  - discriminate.
  - reflexivity.
Defined.





(** ** Further properties of the framing and of the message list *)

(** X15. Blank lines on the wire are skipped: for lines that hold no line
    feed, each sent with its terminator, the framing hands on exactly the
    lines that are not blank, in order. *)
Theorem lines_of_skips_blank_lines (lines : list jsstring) :
  Forall (fun line => ~ In JsString.LF line) lines ->
  ChatInterface.lines_of (Spec.wire lines)
  = filter (fun line => JsString.truthy (JsString.trim line)) lines.
Proof.
  intros H. unfold ChatInterface.lines_of.
  rewrite <- (app_nil_r (Spec.wire lines)), split_lines_wire by assumption.
  rewrite filter_app. cbn. apply app_nil_r.
Qed.

Lemma lines_of_skips_blank_lines_witness :
  ChatInterface.lines_of
    (Spec.wire [q "{'type':'chunk','data':'Hi'}"; u "  "; [];
                q "{'type':'chunk','data':'!'}"])
  = filter (fun line => JsString.truthy (JsString.trim line))
      [q "{'type':'chunk','data':'Hi'}"; u "  "; [];
       q "{'type':'chunk','data':'!'}"].
Proof.
  apply (lines_of_skips_blank_lines
           [q "{'type':'chunk','data':'Hi'}"; u "  "; [];
            q "{'type':'chunk','data':'!'}"]).
  repeat constructor; not_in_list.
Defined.

Lemma touched_ids (bot : jsstring) (l l' : list ChatInterface.ChatMessage) :
  Forall2 (ChatInterface.touched bot) l l' ->
  map ChatInterface.id l' = map ChatInterface.id l
  /\ map ChatInterface.role l' = map ChatInterface.role l
  /\ map ChatInterface.timestamp l' = map ChatInterface.timestamp l
  /\ forall i m, nth_error l i = Some m -> ChatInterface.id m <> bot ->
                 nth_error l' i = Some m.
Proof.
  induction 1 as [|m m' l l' (I & R & T & E) _ (IH1 & IH2 & IH3 & IH4)]; cbn.
  - repeat split; auto.
  - repeat split; try congruence.
    intros [|i] x Hx Hne; cbn in *.
    + injection Hx as <-. now rewrite (E Hne).
    + eauto.
Qed.

(** X16. Whatever the ids drawn, a session never adds, removes or
    reorders a message after it has appended the user message and its own,
    and never changes an id, a role or a timestamp; a message whose id is
    not that of the handler's message is left exactly as it was. *)
Theorem chat_session_preserves_the_list
  (JSON_parse : jsstring -> option JsVal)
  (env : ChatInterface.Env) (st : ChatInterface.State) (transport : list Settled) :
  JsString.trim (ChatInterface.inputMessage st) <> [] ->
  ChatInterface.isTyping st = false ->
  let final := ChatInterface.handleSendMessage JSON_parse env st transport in
  let entered :=
    ChatInterface.messages st
    ++ [Lifecycle.user_message env st; ReadLoop.bot_message env [] true] in
  let msgs := ChatInterface.messages (ChatInterface.ui final) in
  map ChatInterface.id msgs = map ChatInterface.id entered
  /\ map ChatInterface.role msgs = map ChatInterface.role entered
  /\ map ChatInterface.timestamp msgs = map ChatInterface.timestamp entered
  /\ forall i m, nth_error entered i = Some m ->
                 ChatInterface.id m <> ChatInterface.botMessageId env ->
                 nth_error msgs i = Some m.
Proof.
  intros Hin Hty final entered msgs.
  pose proof (handleSendMessage_chat_session JSON_parse env st transport Hin Hty)
    as (HM & _).
  exact (touched_ids _ _ _ HM).
Qed.

Lemma chat_session_preserves_the_list_witness :
  let env := ChatInterface.mkEnv (u "1") 2000 (u "1") 2001 in
  let final :=
    ChatInterface.handleSendMessage JSON.parse env Fixtures.chat0
      (Response true (u "OK") true :: map Chunk Fixtures.hello_reads ++ [Done]) in
  let entered :=
    ChatInterface.messages Fixtures.chat0
    ++ [Lifecycle.user_message env Fixtures.chat0;
        ReadLoop.bot_message env [] true] in
  let msgs := ChatInterface.messages (ChatInterface.ui final) in
  map ChatInterface.id msgs = map ChatInterface.id entered
  /\ map ChatInterface.role msgs = map ChatInterface.role entered
  /\ map ChatInterface.timestamp msgs = map ChatInterface.timestamp entered
  /\ forall i m, nth_error entered i = Some m ->
                 ChatInterface.id m <> ChatInterface.botMessageId env ->
                 nth_error msgs i = Some m.
Proof.
  intros env.
  apply (chat_session_preserves_the_list JSON.parse env Fixtures.chat0).
  - vm_compute. discriminate.
  - reflexivity.
Defined.
